(** * PngSequencer: the playback timeline engine

    A shallow embedding of the [PngSequencer] component (src/lib): its hook
    state and refs, the imperative handle ([play], [pause], [stop], [restart],
    [goToFrame]), the effects that run after a commit, and the callback the
    interval timer invokes.

    Conventions of the embedding.
    - Frame indices are integer-valued JavaScript numbers; they are modelled
      as [Z] (array lengths keep them far inside the exactly representable
      range).  [fps], [duration] and [frameInterval] are IEEE binary64 numbers
      and are modelled by the primitive type [float].
    - Hook state ([useState]) and refs ([useRef]) live in one record, threaded
      by a small state monad [Hook].  A setter given a value is applied in
      program order (no handler reads the state back).
    - The interval callback gives [setCurrentFrame] an updater that reads and
      writes refs, so it matters when React runs it.  React runs a queued
      updater in the render that follows the callback, that is after the
      callback has read [pendingStopRef]; only on its eager path (the
      component has no update pending, as after a render that bailed out) does
      it run the updater at the call.  A tick therefore carries a flag that
      says which of the two happened.
    - After each handler the component commits; the only effect whose
      dependencies a handler can change is the timer effect, so a commit runs
      it.  A change of props runs the effects whose dependencies changed.
      States are observed between operations, once the effects of the commit
      have run. *)

From Stdlib Require Import ZArith List Bool Lia String Floats.
Import ListNotations.

Open Scope Z_scope.

(** ** JavaScript numbers *)

Module Js.

(** [Number.isFinite]. *)
Definition isFinite (x : float) : bool :=
  negb (PrimFloat.is_nan x || PrimFloat.is_infinity x).

(** Truthiness of a number: every number but [0], [-0] and [NaN]. *)
Definition truthy (x : float) : bool :=
  negb (PrimFloat.is_nan x || PrimFloat.is_zero x).

(** [x > y]. *)
Definition gt (x y : float) : bool := PrimFloat.ltb y x.

(** An array length as a number. *)
Definition ofLength (n : nat) : float :=
  PrimFloat.of_uint63 (Uint63.of_Z (Z.of_nat n)).

(** [Math.min] and [Math.max] on integer-valued numbers. *)
Definition Math_min (a b : Z) : Z := Z.min a b.
Definition Math_max (a b : Z) : Z := Z.max a b.

End Js.

(** ** Types of the component *)

Inductive PlaybackState : Type := idle | playing | paused | stopped.

Definition PlaybackState_eqb (a b : PlaybackState) : bool :=
  match a, b with
  | idle, idle | playing, playing | paused, paused | stopped, stopped => true
  | _, _ => false
  end.

Record PlayOptions : Type := { stopAtFrame : option Z }.

Record GoToFrameOptions : Type := { autoPause : option bool }.

(** [options?.stopAtFrame], when it is a number. *)
Definition optStopAtFrame (options : option PlayOptions) : option Z :=
  match options with
  | Some o => stopAtFrame o
  | None => None
  end.

(** [options?.autoPause] as a condition. *)
Definition optAutoPause (options : option GoToFrameOptions) : bool :=
  match options with
  | Some o => match autoPause o with Some b => b | None => false end
  | None => false
  end.

(** The props the engine reads.  The rendering props ([className], [style],
    [imageProps], [renderPlaceholder]) and [preload] do not reach the engine. *)
Record Props : Type := {
  frames : list string;
  fps : float;
  duration : option float;
  loop : bool;
  autoPlay : bool;
  initialFrame : Z
}.

Definition DEFAULT_FPS : float := 24%float.

(** Props with every optional prop left out. *)
Definition defaultProps (fs : list string) : Props :=
  {| frames := fs; fps := DEFAULT_FPS; duration := None;
     loop := true; autoPlay := true; initialFrame := 0 |}.

(** The hook state and the refs.  [intervalRef] records whether an interval
    is armed (the timer id itself is never inspected). *)
Record State : Type := {
  currentFrame : Z;
  isPlaying : bool;
  playbackState : PlaybackState;
  intervalRef : bool;
  stopAtRef : option Z;
  pendingStopRef : option PlaybackState
}.

(** ** Helpers of the component *)

Definition clamp (value min max : Z) : Z :=
  Js.Math_min (Js.Math_max value min) max.

Definition framesLength (p : Props) : Z := Z.of_nat (List.length (frames p)).

Definition safeLastIndex (p : Props) : Z := Js.Math_max (framesLength p - 1) 0.

Definition clampFrame (p : Props) (frameIndex : Z) : Z :=
  if framesLength p =? 0 then 0 else clamp frameIndex 0 (safeLastIndex p).

(** [duration && duration > 0]: the duration that overrides the frame rate. *)
Definition durationOverride (p : Props) : option float :=
  match duration p with
  | Some d => if Js.truthy d && Js.gt d 0%float then Some d else None
  | None => None
  end.

Definition safeFps (p : Props) : float :=
  if Js.gt (fps p) 0%float then fps p else DEFAULT_FPS.

Definition frameInterval (p : Props) : float :=
  if framesLength p =? 0 then PrimFloat.infinity
  else match durationOverride p with
       | Some d => (d / Js.ofLength (List.length (frames p)))%float
       | None => (1000 / safeFps p)%float
       end.

(** ** The hook monad *)

Definition Hook (A : Type) : Type := State -> A * State.

Definition ret {A : Type} (a : A) : Hook A := fun s => (a, s).

Definition bind {A B : Type} (m : Hook A) (k : A -> Hook B) : Hook B :=
  fun s => let (a, s') := m s in k a s'.

Definition exec {A : Type} (m : Hook A) (s : State) : State := snd (m s).

Declare Scope hook_scope.
Delimit Scope hook_scope with hook.
Bind Scope hook_scope with Hook.

Notation "x <- m ;; k" := (bind m (fun x => k))
  (at level 61, m at next level, right associativity) : hook_scope.
Notation "m ;; k" := (bind m (fun _ => k))
  (at level 61, right associativity) : hook_scope.

Open Scope hook_scope.

(** State setters; the [With] forms take an updater function. *)
Definition setCurrentFrameWith (f : Z -> Hook Z) : Hook unit :=
  fun s =>
    let (v, s') := f (currentFrame s) s in
    (tt, {| currentFrame := v; isPlaying := isPlaying s';
            playbackState := playbackState s'; intervalRef := intervalRef s';
            stopAtRef := stopAtRef s'; pendingStopRef := pendingStopRef s' |}).

Definition setCurrentFrame (v : Z) : Hook unit :=
  setCurrentFrameWith (fun _ => ret v).

Definition setIsPlaying (b : bool) : Hook unit :=
  fun s =>
    (tt, {| currentFrame := currentFrame s; isPlaying := b;
            playbackState := playbackState s; intervalRef := intervalRef s;
            stopAtRef := stopAtRef s; pendingStopRef := pendingStopRef s |}).

Definition setPlaybackStateWith (f : PlaybackState -> PlaybackState) : Hook unit :=
  fun s =>
    (tt, {| currentFrame := currentFrame s; isPlaying := isPlaying s;
            playbackState := f (playbackState s); intervalRef := intervalRef s;
            stopAtRef := stopAtRef s; pendingStopRef := pendingStopRef s |}).

(** Reads and writes of the refs. *)
Definition readIsPlaying : Hook bool := fun s => (isPlaying s, s).

Definition readStopAt : Hook (option Z) := fun s => (stopAtRef s, s).

Definition readPendingStop : Hook (option PlaybackState) :=
  fun s => (pendingStopRef s, s).

Definition writeIntervalRef (b : bool) : Hook unit :=
  fun s =>
    (tt, {| currentFrame := currentFrame s; isPlaying := isPlaying s;
            playbackState := playbackState s; intervalRef := b;
            stopAtRef := stopAtRef s; pendingStopRef := pendingStopRef s |}).

Definition writeStopAt (v : option Z) : Hook unit :=
  fun s =>
    (tt, {| currentFrame := currentFrame s; isPlaying := isPlaying s;
            playbackState := playbackState s; intervalRef := intervalRef s;
            stopAtRef := v; pendingStopRef := pendingStopRef s |}).

Definition writePendingStop (v : option PlaybackState) : Hook unit :=
  fun s =>
    (tt, {| currentFrame := currentFrame s; isPlaying := isPlaying s;
            playbackState := playbackState s; intervalRef := intervalRef s;
            stopAtRef := stopAtRef s; pendingStopRef := v |}).

(** ** Callbacks of the component *)

Definition clearTimer : Hook unit :=
  fun s => if intervalRef s then writeIntervalRef false s else (tt, s).

Definition transitionTo (state : PlaybackState) : Hook unit :=
  setPlaybackStateWith
    (fun prev => if PlaybackState_eqb prev state then prev else state).

Definition pauseInternal : Hook unit :=
  setIsPlaying false ;;
  transitionTo paused.

Definition stopInternal : Hook unit :=
  setIsPlaying false ;;
  setCurrentFrame 0 ;;
  writeStopAt None ;;
  transitionTo stopped.

Definition play (p : Props) (options : option PlayOptions) : Hook unit :=
  if framesLength p =? 0 then ret tt
  else
    match optStopAtFrame options with
    | Some n => writeStopAt (Some (clampFrame p n))
    | None => writeStopAt None
    end ;;
    setIsPlaying true ;;
    transitionTo playing.

Definition restart (p : Props) : Hook unit :=
  setCurrentFrame 0 ;;
  play p None.

Definition pause : Hook unit := pauseInternal.

Definition stop : Hook unit := stopInternal.

Definition goToFrame (p : Props) (frameIndex : Z)
  (options : option GoToFrameOptions) : Hook unit :=
  setCurrentFrame (clampFrame p frameIndex) ;;
  if optAutoPause options then pauseInternal else ret tt.

(** ** Effects *)

(** The effect on [frames.length]: reset when the frames disappear, re-clamp
    the index otherwise. *)
Definition framesEffect (p : Props) : Hook unit :=
  if framesLength p =? 0 then stopInternal
  else setCurrentFrameWith (fun prev => ret (clampFrame p prev)).

Definition autoPlayEffect (p : Props) : Hook unit :=
  if negb (autoPlay p) || (framesLength p =? 0) then ret tt
  else play p None.

(** A ref's number where it is used as one: [null] coerces to [0]. *)
Definition numberOf (v : option Z) : Z :=
  match v with Some n => n | None => 0 end.

(** The updater the interval callback passes to [setCurrentFrame]. *)
Definition tickUpdater (p : Props) (prev : Z) : Hook Z :=
  if framesLength p =? 0 then ret prev
  else
    let lastIndex := framesLength p - 1 in
    let next := prev + 1 in
    stopAtTarget <- readStopAt ;;
    let reachedStopAt :=
      match stopAtTarget with
      | Some target => next >=? target
      | None => false
      end in
    if reachedStopAt then
      writePendingStop (Some paused) ;;
      ret (clamp (numberOf stopAtTarget) 0 lastIndex)
    else if next >? lastIndex then
      if loop p then ret 0
      else writePendingStop (Some stopped) ;; ret lastIndex
    else writePendingStop None ;; ret next.

(** The commit of a pending transition, the [if (pendingStopRef.current)]
    block of the interval callback. *)
Definition pendingStopCommit : Hook unit :=
  pending <- readPendingStop ;;
  match pending with
  | Some nextState =>
      writePendingStop None ;;
      writeStopAt None ;;
      setIsPlaying false ;;
      transitionTo nextState
  | None => ret tt
  end.

(** The callback given to [window.setInterval]: it hands the updater to
    [setCurrentFrame], then commits a pending transition.  With [eager] React
    runs the updater at the call, before the check of [pendingStopRef];
    otherwise it runs it in the render after the callback, so that the check
    sees what an earlier tick left. *)
Definition timerCallback (p : Props) (eager : bool) : Hook unit :=
  if eager then
    setCurrentFrameWith (tickUpdater p) ;;
    pendingStopCommit
  else
    pendingStopCommit ;;
    setCurrentFrameWith (tickUpdater p).

(** The timer effect: an interval is armed exactly while the component is
    playing with a finite interval. *)
Definition timerEffect (p : Props) : Hook unit :=
  playingNow <- readIsPlaying ;;
  if negb playingNow || negb (Js.isFinite (frameInterval p)) then clearTimer
  else clearTimer ;; writeIntervalRef true.

(** ** The engine as a transition system *)

(** State of the first render. *)
Definition initialState (p : Props) : State :=
  {| currentFrame := clampFrame p (initialFrame p);
     isPlaying := false;
     playbackState := idle;
     intervalRef := false;
     stopAtRef := None;
     pendingStopRef := None |}.

(** Mounting runs every effect once, in declaration order. *)
Definition mount (p : Props) : State :=
  exec (framesEffect p ;; autoPlayEffect p ;; timerEffect p) (initialState p).

(** A handler followed by the commit it causes. *)
Definition commit (p : Props) (handler : Hook unit) (s : State) : State :=
  exec (handler ;; timerEffect p) s.

(** New props [p'] replace [p]: the effects whose dependencies changed run.
    [clampFrame], [play] and [stopInternal] change identity only with
    [frames.length]. *)
Definition rerender (p p' : Props) : Hook unit :=
  let lengthChanged := negb (framesLength p =? framesLength p') in
  let autoPlayChanged := negb (Bool.eqb (autoPlay p) (autoPlay p')) in
  (if lengthChanged then framesEffect p' else ret tt) ;;
  (if lengthChanged || autoPlayChanged then autoPlayEffect p' else ret tt) ;;
  timerEffect p'.

Inductive Op : Type :=
| OpPlay (options : option PlayOptions)
| OpPause
| OpStop
| OpRestart
| OpGoToFrame (frameIndex : Z) (options : option GoToFrameOptions)
| OpTick (eager : bool)
| OpSetProps (p' : Props).

Definition Engine : Type := Props * State.

(** One operation.  The interval callback runs only while an interval is
    armed; [OpTick eager] is one firing of it, with React running the updater
    eagerly or not. *)
Definition step (e : Engine) (op : Op) : Engine :=
  let (p, s) := e in
  match op with
  | OpPlay options => (p, commit p (play p options) s)
  | OpPause => (p, commit p pause s)
  | OpStop => (p, commit p stop s)
  | OpRestart => (p, commit p (restart p) s)
  | OpGoToFrame frameIndex options => (p, commit p (goToFrame p frameIndex options) s)
  | OpTick eager =>
      (p, if intervalRef s then commit p (timerCallback p eager) s else s)
  | OpSetProps p' => (p', exec (rerender p p') s)
  end.

Definition start (p : Props) : Engine := (p, mount p).

Definition run (ops : list Op) (e : Engine) : Engine := fold_left step ops e.

Definition tick (p : Props) (eager : bool) (s : State) : State :=
  snd (step (p, s) (OpTick eager)).

(** Ticks under a schedule: one flag per tick. *)
Definition ticksBy (p : Props) (schedule : list bool) (s : State) : State :=
  fold_left (fun s' eager => tick p eager s') schedule s.

(** [n] ticks whose updaters React runs in the render after the callback. *)
Definition ticks (p : Props) (n : nat) (s : State) : State :=
  Nat.iter n (tick p false) s.

(** [play({ stopAtFrame: T })]. *)
Definition playTo (T : Z) : Op := OpPlay (Some {| stopAtFrame := Some T |}).

(** [n] ticks in a row, as operations. *)
Definition queuedTicks (n : nat) : list Op := repeat (OpTick false) n.

(** Frame lists for examples. *)
Definition sampleFrames (n : nat) : list string := repeat "frame.png"%string n.

(** ** Vocabulary of the statements *)

(** What holds of every engine state between operations.  [pendingStopRef]
    holds nothing, or the transition a tick updater asked for. *)
Definition Consistent (e : Engine) : Prop :=
  let (p, s) := e in
  0 <= currentFrame s <= safeLastIndex p /\
  (pendingStopRef s = None \/ pendingStopRef s = Some paused \/
   pendingStopRef s = Some stopped) /\
  (isPlaying s = true <-> playbackState s = playing) /\
  intervalRef s = isPlaying s && Js.isFinite (frameInterval p) /\
  (framesLength p = 0 -> isPlaying s = false /\ stopAtRef s = None) /\
  (forall t, stopAtRef s = Some t -> 0 <= t).

(** A settled state: consistent, with no transition pending. *)
Definition Inv (e : Engine) : Prop :=
  let (p, s) := e in
  0 <= currentFrame s <= safeLastIndex p /\
  pendingStopRef s = None /\
  (isPlaying s = true <-> playbackState s = playing) /\
  intervalRef s = isPlaying s && Js.isFinite (frameInterval p) /\
  (framesLength p = 0 -> isPlaying s = false /\ stopAtRef s = None) /\
  (forall t, stopAtRef s = Some t -> 0 <= t).

(** The branch a tick takes on a state whose updater runs on that state: the
    conditions of [step] and [tickUpdater], in their order. *)
Inductive TickKind : Type :=
| NoTimer | NoFrames | ReachTarget | LoopWrap | HaltAtEnd | Advance.

Definition tickKind (p : Props) (s : State) : TickKind :=
  if negb (intervalRef s) then NoTimer
  else if framesLength p =? 0 then NoFrames
  else
    let next := currentFrame s + 1 in
    if match stopAtRef s with Some target => next >=? target | None => false end
    then ReachTarget
    else if next >? framesLength p - 1 then
      if loop p then LoopWrap else HaltAtEnd
    else Advance.

(** Whether the interval callback, fired on [s], finds a transition pending
    when it reads [pendingStopRef]: what an earlier tick left or, with
    [eager], what its own updater has just written (the reach-target and
    halt-at-end branches write one, the advance branch erases it, the wrap
    branch leaves the ref alone). *)
Definition findsPending (p : Props) (eager : bool) (s : State) : bool :=
  let left := match pendingStopRef s with Some _ => true | None => false end in
  if eager then
    match tickKind p s with
    | ReachTarget | HaltAtEnd => true
    | Advance => false
    | LoopWrap | NoFrames | NoTimer => left
    end
  else left.

(** The index the updater moves to from [c] when no stop target is set. *)
Definition nextIndex (p : Props) (c : Z) : Z :=
  if c + 1 >? framesLength p - 1 then
    if loop p then 0 else framesLength p - 1
  else c + 1.

(** Whether replacing props [p] by [p'] clears the stop target: the frames
    effect resets on a list that became empty, and the autoplay effect calls
    [play()] when it re-runs on a non-empty list with [autoPlay] on. *)
Definition propsChangeClears (p p' : Props) : bool :=
  let lengthChanged := negb (framesLength p =? framesLength p') in
  let autoPlayChanged := negb (Bool.eqb (autoPlay p) (autoPlay p')) in
  (lengthChanged && (framesLength p' =? 0))
  || ((lengthChanged || autoPlayChanged)
      && autoPlay p' && negb (framesLength p' =? 0)).

(** A frame rate that is [NaN] or not above zero (zero, negative, [-Infinity]). *)
Definition nanOrNonPositive (x : float) : bool :=
  PrimFloat.is_nan x || PrimFloat.leb x 0%float.

(** A state that is playing at index [c] with stop target [t], timer armed. *)
Definition running (c : Z) (t : option Z) : State :=
  {| currentFrame := c; isPlaying := true; playbackState := playing;
     intervalRef := true; stopAtRef := t; pendingStopRef := None |}.

(** A state halted at index [c] in playback state [st], timer released. *)
Definition halted (c : Z) (st : PlaybackState) : State :=
  {| currentFrame := c; isPlaying := false; playbackState := st;
     intervalRef := false; stopAtRef := None; pendingStopRef := None |}.

(** Example configurations. *)
Definition exampleProps (n : nat) (looping autoplay : bool) : Props :=
  {| frames := sampleFrames n; fps := DEFAULT_FPS; duration := None;
     loop := looping; autoPlay := autoplay; initialFrame := 0 |}.

Definition infiniteFpsProps : Props :=
  {| frames := sampleFrames 5; fps := PrimFloat.infinity; duration := None;
     loop := true; autoPlay := true; initialFrame := 0 |}.

Definition zeroFpsProps : Props :=
  {| frames := sampleFrames 5; fps := 0%float; duration := None;
     loop := true; autoPlay := true; initialFrame := 0 |}.

(** ** The rest of the component *)

(** The handle's two reads. *)
Definition getCurrentFrame (s : State) : Z := currentFrame s.

Definition getPlaybackState (s : State) : PlaybackState := playbackState s.

(** [array[i]] for an integer-valued [i]: [undefined] outside the array. *)
Definition arrayGet {A : Type} (l : list A) (i : Z) : option A :=
  if i <? 0 then None else nth_error l (Z.to_nat i).

(** What the component renders: the placeholder, or the image with its [src]
    and the [data-frame] and [data-state] attributes.  ([alt], the class name
    and the forwarded [imageProps] are left out.) *)
Inductive View : Type :=
| Placeholder
| FrameView (src : option string) (dataFrame : Z) (dataState : PlaybackState).

Definition render (p : Props) (s : State) : View :=
  let hasFrames := framesLength p >? 0 in
  if negb hasFrames then Placeholder
  else FrameView (arrayGet (frames p) (currentFrame s))
                 (currentFrame s) (playbackState s).

(** The same props with [duration] left out. *)
Definition withoutDuration (p : Props) : Props :=
  {| frames := frames p; fps := fps p; duration := None;
     loop := loop p; autoPlay := autoPlay p; initialFrame := initialFrame p |}.

Definition infiniteDurationProps : Props :=
  {| frames := sampleFrames 5; fps := DEFAULT_FPS;
     duration := Some PrimFloat.infinity;
     loop := true; autoPlay := true; initialFrame := 0 |}.

Definition durationProps (d : float) : Props :=
  {| frames := sampleFrames 5; fps := DEFAULT_FPS; duration := Some d;
     loop := true; autoPlay := true; initialFrame := 0 |}.

(** ** Basic facts *)

Ltac case_cond :=
  match goal with
  | |- context [if ?a =? ?b then _ else _] => destruct (Z.eqb_spec a b)
  | |- context [if ?a >=? ?b then _ else _] => destruct (Z.geb_spec a b)
  | |- context [if ?a >? ?b then _ else _] => destruct (Z.gtb_spec a b)
  end; try lia; cbn.

Ltac hook_unfold :=
  unfold tick, step, commit, exec, mount, rerender, timerCallback,
    pendingStopCommit, tickUpdater,
    timerEffect, framesEffect, autoPlayEffect, goToFrame, stop, pause, restart,
    play, stopInternal, pauseInternal, transitionTo, clearTimer,
    setCurrentFrame, setCurrentFrameWith, setIsPlaying, setPlaybackStateWith,
    readIsPlaying, readStopAt, readPendingStop, writeIntervalRef, writeStopAt,
    writePendingStop, bind, ret, numberOf in *.

Lemma clamp_range (v lo hi : Z) : lo <= hi -> lo <= clamp v lo hi <= hi.
Proof. unfold clamp, Js.Math_min, Js.Math_max. lia. Qed.

Lemma clamp_id (v lo hi : Z) : lo <= v <= hi -> clamp v lo hi = v.
Proof. unfold clamp, Js.Math_min, Js.Math_max. lia. Qed.

Lemma safeLastIndex_nonneg (p : Props) : 0 <= safeLastIndex p.
Proof. unfold safeLastIndex, Js.Math_max. lia. Qed.

Lemma safeLastIndex_pos (p : Props) :
  0 < framesLength p -> safeLastIndex p = framesLength p - 1.
Proof. unfold safeLastIndex, Js.Math_max. lia. Qed.

Lemma framesLength_nonneg (p : Props) : 0 <= framesLength p.
Proof. unfold framesLength. lia. Qed.

Lemma clampFrame_range (p : Props) (i : Z) :
  0 <= clampFrame p i <= safeLastIndex p.
Proof.
  pose proof (safeLastIndex_nonneg p) as H.
  unfold clampFrame. destruct (framesLength p =? 0).
  - lia.
  - apply clamp_range. exact H.
Qed.

Lemma clampFrame_id (p : Props) (i : Z) :
  0 <= i <= framesLength p - 1 -> clampFrame p i = i.
Proof.
  intros H. unfold clampFrame.
  destruct (Z.eqb_spec (framesLength p) 0) as [E | _]; [lia |].
  apply clamp_id. rewrite safeLastIndex_pos; lia.
Qed.

Lemma transition_value (prev state : PlaybackState) :
  (if PlaybackState_eqb prev state then prev else state) = state.
Proof. destruct prev, state; reflexivity. Qed.

Ltac inv_finish :=
  rewrite ?transition_value in *;
  repeat split; intros;
  repeat match goal with
         | H : Some _ = Some _ |- _ => injection H as H; subst
         end;
  try lia; try discriminate; try reflexivity; try tauto; try congruence;
  try apply (proj1 (clampFrame_range _ _)); try solve [eauto].


(** *** Single ticks, by branch *)

Section SingleTick.

Variable p : Props.
Hypothesis nonEmpty : 0 < framesLength p.

Lemma tick_no_timer (eager : bool) (s : State) :
  intervalRef s = false -> tick p eager s = s.
Proof. intros H. unfold tick, step. rewrite H. reflexivity. Qed.

(** The updater runs first: reaching the target, or the end with looping
    off, halts in the same tick. *)
Lemma tick_reach_eager (c : Z) (ip : bool) (ps : PlaybackState) (t : Z)
  (pend : option PlaybackState) :
  t <= c + 1 ->
  tick p true {| currentFrame := c; isPlaying := ip; playbackState := ps;
                 intervalRef := true; stopAtRef := Some t;
                 pendingStopRef := pend |}
  = {| currentFrame := clamp t 0 (framesLength p - 1); isPlaying := false;
       playbackState := paused; intervalRef := false; stopAtRef := None;
       pendingStopRef := None |}.
Proof.
  intros H. hook_unfold. cbn.
  repeat case_cond. destruct ps; reflexivity.
Qed.

Lemma tick_halt_eager (c : Z) (ip : bool) (ps : PlaybackState) (t : option Z)
  (pend : option PlaybackState) :
  loop p = false ->
  match t with Some x => c + 1 < x | None => True end ->
  framesLength p - 1 < c + 1 ->
  tick p true {| currentFrame := c; isPlaying := ip; playbackState := ps;
                 intervalRef := true; stopAtRef := t; pendingStopRef := pend |}
  = {| currentFrame := framesLength p - 1; isPlaying := false;
       playbackState := stopped; intervalRef := false; stopAtRef := None;
       pendingStopRef := None |}.
Proof.
  intros Hl Ht Hc. hook_unfold. cbn. rewrite Hl.
  destruct t as [x |]; repeat case_cond; destruct ps; reflexivity.
Qed.

(** The check runs first and finds a transition pending: it is committed,
    and the updater then moves the index once more, with no stop target. *)
Lemma tick_commit_queued (c : Z) (ip : bool) (ps st : PlaybackState)
  (t : option Z) :
  tick p false {| currentFrame := c; isPlaying := ip; playbackState := ps;
                  intervalRef := true; stopAtRef := t;
                  pendingStopRef := Some st |}
  = {| currentFrame := nextIndex p c; isPlaying := false;
       playbackState := st; intervalRef := false; stopAtRef := None;
       pendingStopRef :=
         if (c + 1 >? framesLength p - 1) && negb (loop p)
         then Some stopped else None |}.
Proof.
  hook_unfold. unfold nextIndex. cbn. rewrite transition_value.
  case_cond. destruct (c + 1 >? framesLength p - 1); cbn;
    [destruct (loop p); cbn |]; reflexivity.
Qed.

Hypothesis finite : Js.isFinite (frameInterval p) = true.

(** The check runs first and finds nothing: the transition the updater asks
    for stays pending, and the engine keeps playing. *)
Lemma tick_reach_queued (c : Z) (ps : PlaybackState) (t : Z) :
  t <= c + 1 ->
  tick p false {| currentFrame := c; isPlaying := true; playbackState := ps;
                  intervalRef := true; stopAtRef := Some t;
                  pendingStopRef := None |}
  = {| currentFrame := clamp t 0 (framesLength p - 1); isPlaying := true;
       playbackState := ps; intervalRef := true; stopAtRef := Some t;
       pendingStopRef := Some paused |}.
Proof.
  intros H. hook_unfold. cbn.
  repeat case_cond. rewrite finite. reflexivity.
Qed.

Lemma tick_halt_queued (c : Z) (ps : PlaybackState) (t : option Z) :
  loop p = false ->
  match t with Some x => c + 1 < x | None => True end ->
  framesLength p - 1 < c + 1 ->
  tick p false {| currentFrame := c; isPlaying := true; playbackState := ps;
                  intervalRef := true; stopAtRef := t; pendingStopRef := None |}
  = {| currentFrame := framesLength p - 1; isPlaying := true;
       playbackState := ps; intervalRef := true; stopAtRef := t;
       pendingStopRef := Some stopped |}.
Proof.
  intros Hl Ht Hc. hook_unfold. cbn. rewrite Hl.
  destruct t as [x |]; repeat case_cond; rewrite finite; reflexivity.
Qed.

(** With nothing pending, advancing and wrapping are the same in both
    orders. *)
Lemma tick_advance (eager : bool) (c : Z) (ps : PlaybackState) (t : option Z) :
  match t with Some x => c + 1 < x | None => True end ->
  c + 1 <= framesLength p - 1 ->
  tick p eager {| currentFrame := c; isPlaying := true; playbackState := ps;
                  intervalRef := true; stopAtRef := t; pendingStopRef := None |}
  = {| currentFrame := c + 1; isPlaying := true; playbackState := ps;
       intervalRef := true; stopAtRef := t; pendingStopRef := None |}.
Proof.
  intros Ht Hc. destruct eager; hook_unfold; cbn;
    destruct t as [x |]; repeat case_cond; rewrite finite; reflexivity.
Qed.

Lemma tick_wrap (eager : bool) (c : Z) (ps : PlaybackState) (t : option Z) :
  loop p = true ->
  match t with Some x => c + 1 < x | None => True end ->
  framesLength p - 1 < c + 1 ->
  tick p eager {| currentFrame := c; isPlaying := true; playbackState := ps;
                  intervalRef := true; stopAtRef := t; pendingStopRef := None |}
  = {| currentFrame := 0; isPlaying := true; playbackState := ps;
       intervalRef := true; stopAtRef := t; pendingStopRef := None |}.
Proof.
  intros Hl Ht Hc. destruct eager; hook_unfold; cbn; rewrite Hl;
    destruct t as [x |]; repeat case_cond; rewrite finite; reflexivity.
Qed.

End SingleTick.

(** *** The invariant *)

Lemma Inv_Consistent (e : Engine) : Inv e -> Consistent e.
Proof.
  destruct e as [p s]. unfold Inv, Consistent.
  intros (H1 & H2 & H3). repeat split; try tauto; apply H3.
Qed.

Lemma start_Inv (p : Props) : Inv (start p).
Proof.
  pose proof (clampFrame_range p (initialFrame p)) as Hr.
  pose proof (clampFrame_range p (clampFrame p (initialFrame p))) as Hr'.
  pose proof (safeLastIndex_nonneg p) as Hs.
  unfold start, Inv, initialState. hook_unfold. cbn.
  destruct (Z.eqb_spec (framesLength p) 0) as [E | E]; cbn.
  - rewrite orb_true_r. cbn. rewrite E in *.
    repeat split; try lia; try discriminate; try reflexivity.
  - rewrite orb_false_r.
    destruct (autoPlay p); cbn;
      destruct (Js.isFinite (frameInterval p)); cbn;
      repeat split; try lia; try discriminate; try reflexivity; try tauto.
Qed.

Ltac pending_cases H :=
  destruct H as [H | [H | H]]; rewrite H in *; clear H.

Lemma step_Consistent (e : Engine) (op : Op) :
  Consistent e -> Consistent (step e op).
Proof.
  destruct e as [p s]. destruct s as [c ip ps ir t pend].
  unfold Consistent.
  cbn [currentFrame isPlaying playbackState intervalRef stopAtRef pendingStopRef].
  intros (Hc & Hp & Hpl & Hir & Hz & Ht).
  pose proof (safeLastIndex_nonneg p) as Hs.
  pose proof (framesLength_nonneg p) as Hn.
  destruct op as [o | | | | i o | eager | p'].
  - (* play *)
    hook_unfold. cbn.
    destruct (Z.eqb_spec (framesLength p) 0) as [E | E]; cbn.
    + destruct (Hz E) as [-> ->]. cbn in *. subst ir. inv_finish.
    + destruct (optStopAtFrame o) as [n |]; cbn;
        destruct (Js.isFinite (frameInterval p)); cbn; destruct ir; cbn;
        inv_finish.
  - (* pause *)
    hook_unfold. cbn. destruct ir; cbn; inv_finish.
  - (* stop *)
    hook_unfold. cbn. destruct ir; cbn; inv_finish.
  - (* restart *)
    hook_unfold. cbn.
    destruct (Z.eqb_spec (framesLength p) 0) as [E | E]; cbn.
    + destruct (Hz E) as [-> ->]. cbn in *. subst ir. inv_finish.
    + destruct (Js.isFinite (frameInterval p)); cbn; destruct ir; cbn;
        inv_finish.
  - (* goToFrame *)
    pose proof (clampFrame_range p i) as Hi.
    hook_unfold. cbn.
    destruct (optAutoPause o); cbn;
      destruct ip; cbn; destruct (Js.isFinite (frameInterval p)); cbn;
      destruct ir; cbn; cbn in Hir; inv_finish.
  - (* tick, in either order *)
    destruct ir; [| cbn; inv_finish].
    symmetry in Hir. apply andb_true_iff in Hir. destruct Hir as [-> Hfin].
    assert (E : framesLength p <> 0) by (intros E; destruct (Hz E); discriminate).
    pending_cases Hp; destruct eager; hook_unfold; cbn;
      unfold safeLastIndex, clamp, Js.Math_min, Js.Math_max in *;
      (destruct (Z.eqb_spec (framesLength p) 0) as [E' | _]; [contradiction |]);
      (destruct t as [x |]; cbn;
       [pose proof (Ht x eq_refl) as Hx; destruct (Z.geb_spec (c + 1) x); cbn |]);
      try (destruct (Z.gtb_spec (c + 1) (framesLength p - 1)); cbn;
           [destruct (loop p); cbn |]);
      rewrite ?Hfin; cbn; inv_finish.
  - (* new props *)
    pose proof (safeLastIndex_nonneg p') as Hs'.
    pose proof (clampFrame_range p' c) as Hc'.
    hook_unfold. cbn.
    destruct (Z.eqb_spec (framesLength p) (framesLength p')) as [E | E]; cbn.
    + assert (Es : safeLastIndex p' = safeLastIndex p)
        by (unfold safeLastIndex; rewrite E; reflexivity).
      rewrite Es in *. rewrite E in Hz.
      destruct (Bool.eqb (autoPlay p) (autoPlay p')); cbn.
      * destruct ip; cbn; destruct (Js.isFinite (frameInterval p')); cbn;
          destruct ir; cbn; inv_finish.
      * destruct (autoPlay p'); cbn;
          destruct (Z.eqb_spec (framesLength p') 0) as [E' | E']; cbn;
          try (destruct (Hz E') as [Hip Hst]);
          destruct ip; cbn; destruct (Js.isFinite (frameInterval p')); cbn;
          destruct ir; cbn; inv_finish.
    + destruct (Z.eqb_spec (framesLength p') 0) as [E' | E']; cbn.
      * rewrite orb_true_r. cbn. destruct ir; cbn; inv_finish.
      * rewrite orb_false_r.
        destruct (autoPlay p'); cbn;
          destruct ip; cbn; destruct (Js.isFinite (frameInterval p')); cbn;
          destruct ir; cbn; inv_finish.
Qed.

Lemma run_Consistent (ops : list Op) (e : Engine) :
  Consistent e -> Consistent (run ops e).
Proof.
  revert e. induction ops as [| op ops IH]; intros e He; cbn.
  - exact He.
  - apply IH. apply step_Consistent. exact He.
Qed.

Lemma reachable_Consistent (p : Props) (ops : list Op) :
  Consistent (run ops (start p)).
Proof. apply run_Consistent. apply Inv_Consistent. apply start_Inv. Qed.

(** ** The frame index stays in range *)

(** C1. For every frame list and every sequence of operations (mounting
    with any [initialFrame], play, pause, stop, restart, goToFrame with any
    integer, timer ticks, and changes of props, among them of the frame list),
    the resulting [currentFrame] lies between [0] and [max (N - 1) 0], where
    [N] is the length of the frame list then in force. *)
Theorem currentFrame_in_range (p : Props) (ops : list Op) :
  0 <= currentFrame (snd (run ops (start p)))
    <= Z.max (framesLength (fst (run ops (start p))) - 1) 0.
Proof.
  pose proof (reachable_Consistent p ops) as H.
  destruct (run ops (start p)) as [p' s]. cbn.
  destruct H as [H _]. exact H.
Qed.

(** ** stop() *)

(** C6. From every state, [stop()] leaves [currentFrame = 0],
    [playbackState = stopped] and no stop target (and releases the timer). *)
Theorem stop_resets (p : Props) (s : State) :
  currentFrame (snd (step (p, s) OpStop)) = 0 /\
  playbackState (snd (step (p, s) OpStop)) = stopped /\
  stopAtRef (snd (step (p, s) OpStop)) = None /\
  isPlaying (snd (step (p, s) OpStop)) = false /\
  intervalRef (snd (step (p, s) OpStop)) = false.
Proof.
  destruct s as [c ip ps ir t pend]. hook_unfold. cbn.
  rewrite transition_value. destruct ir; cbn; repeat split.
Qed.

(** ** play() *)

Lemma play_commit (p : Props) (s : State) (o : option PlayOptions) :
  0 < framesLength p ->
  snd (step (p, s) (OpPlay o))
  = {| currentFrame := currentFrame s; isPlaying := true;
       playbackState := playing;
       intervalRef := Js.isFinite (frameInterval p);
       stopAtRef := option_map (clampFrame p) (optStopAtFrame o);
       pendingStopRef := pendingStopRef s |}.
Proof.
  intros HN. destruct s as [c ip ps ir t pend]. hook_unfold. cbn.
  case_cond.
  destruct (optStopAtFrame o); cbn; rewrite transition_value;
    destruct (Js.isFinite (frameInterval p)); cbn; destruct ir; reflexivity.
Qed.

(** C2 (code bug). The claim: after [play({stopAtFrame: T})] at index 0 the
    engine halts exactly at index [T], paused.  The code, on 5 frames with
    target 3 and looping on, ticking with the updater run after the callback:
    after 3 ticks the index is 3 but the engine is still playing with the
    timer armed and the pause only pending; the 4th tick commits the pause and
    its updater moves the index to 4, where the run rests.  With looping off
    and target 2 it rests at 3 likewise. *)
Theorem play_to_target_overshoots :
  snd (run (playTo 3 :: queuedTicks 3) (start (exampleProps 5 true true)))
  = {| currentFrame := 3; isPlaying := true; playbackState := playing;
       intervalRef := true; stopAtRef := Some 3;
       pendingStopRef := Some paused |} /\
  snd (run (playTo 3 :: queuedTicks 4) (start (exampleProps 5 true true)))
  = halted 4 paused /\
  snd (run (playTo 3 :: queuedTicks 9) (start (exampleProps 5 true true)))
  = halted 4 paused /\
  currentFrame
    (snd (run (playTo 2 :: queuedTicks 2) (start (exampleProps 5 false true))))
  = 2 /\
  playbackState
    (snd (run (playTo 2 :: queuedTicks 2) (start (exampleProps 5 false true))))
  = playing /\
  snd (run (playTo 2 :: queuedTicks 5) (start (exampleProps 5 false true)))
  = halted 3 paused.
Proof. vm_compute. repeat split. Qed.

Lemma clampFrame_low (p : Props) (T : Z) :
  0 < framesLength p -> T <= framesLength p - 1 -> clampFrame p T = Z.max T 0.
Proof.
  intros HN HT. unfold clampFrame. case_cond.
  rewrite safeLastIndex_pos by exact HN.
  unfold clamp, Js.Math_min, Js.Math_max. lia.
Qed.


(** C10 (amended). With a non-empty frame list, a timer that can run and no
    transition pending, if [play({stopAtFrame: T})] is called while
    [currentFrame >= T], the very next tick sets [currentFrame] to [T] clamped
    into the valid range, that is [max T 0] (to [T] itself when [T >= 0],
    moving backwards when [currentFrame > T]); after it the engine is paused
    or the pause is pending, and the tick that follows leaves it paused with
    the timer released and the target cleared, in whichever order React runs
    the updaters. *)
Theorem play_at_or_past_target (p : Props) (s : State) (T : Z) (eager : bool) :
  0 < framesLength p ->
  Js.isFinite (frameInterval p) = true ->
  0 <= currentFrame s <= framesLength p - 1 ->
  T <= currentFrame s ->
  pendingStopRef s = None ->
  currentFrame (tick p eager (snd (step (p, s) (playTo T)))) = Z.max T 0 /\
  (playbackState (tick p eager (snd (step (p, s) (playTo T)))) = paused \/
   pendingStopRef (tick p eager (snd (step (p, s) (playTo T)))) = Some paused) /\
  (forall eager' : bool,
     playbackState
       (tick p eager' (tick p eager (snd (step (p, s) (playTo T))))) = paused /\
     intervalRef
       (tick p eager' (tick p eager (snd (step (p, s) (playTo T))))) = false /\
     stopAtRef
       (tick p eager' (tick p eager (snd (step (p, s) (playTo T))))) = None).
Proof.
  intros HN Hfin Hc HT Hp. unfold playTo. rewrite play_commit by exact HN.
  cbn [optStopAtFrame stopAtFrame option_map].
  rewrite clampFrame_low by (assumption || lia). rewrite Hfin, Hp.
  destruct eager.
  - rewrite tick_reach_eager by lia. rewrite clamp_id by lia.
    cbn [currentFrame playbackState pendingStopRef].
    split; [reflexivity |]. split; [left; reflexivity |].
    intros eager'. rewrite tick_no_timer by reflexivity. cbn. repeat split.
  - rewrite tick_reach_queued by (assumption || lia).
    rewrite clamp_id by lia. cbn [currentFrame playbackState pendingStopRef].
    split; [reflexivity |]. split; [right; reflexivity |].
    intros [|].
    + rewrite tick_reach_eager by lia. cbn. repeat split.
    + rewrite tick_commit_queued by exact HN. cbn. repeat split.
Qed.

Lemma play_at_or_past_target_witness :
  (0 < framesLength (exampleProps 5 true true) /\
   Js.isFinite (frameInterval (exampleProps 5 true true)) = true /\
   0 <= currentFrame (running 3 None)
     <= framesLength (exampleProps 5 true true) - 1 /\
   1 <= currentFrame (running 3 None) /\
   pendingStopRef (running 3 None) = None) /\
  currentFrame (tick (exampleProps 5 true true) false
    (snd (step (exampleProps 5 true true, running 3 None) (playTo 1)))) = 1.
Proof.
  assert (H1 : 0 < framesLength (exampleProps 5 true true)) by reflexivity.
  assert (H2 : Js.isFinite (frameInterval (exampleProps 5 true true)) = true)
    by (vm_compute; reflexivity).
  assert (H3 : 0 <= currentFrame (running 3 None)
               <= framesLength (exampleProps 5 true true) - 1) by (cbn; lia).
  assert (H4 : 1 <= currentFrame (running 3 None)) by (cbn; lia).
  assert (H5 : pendingStopRef (running 3 None) = None) by reflexivity.
  split; [exact (conj H1 (conj H2 (conj H3 (conj H4 H5)))) |].
  exact (proj1 (play_at_or_past_target (exampleProps 5 true true)
                  (running 3 None) 1 false H1 H2 H3 H4 H5)).
Defined.

(** C10 as stated fails twice.  For a negative target: at index 3 of 5,
    [play({stopAtFrame: -1})] and one tick leave the index at 0, not at -1,
    in either order.  And the very next tick need not pause: at index 3 of 5,
    [play({stopAtFrame: 1})] and one tick, its updater run after the
    callback, leave the engine at index 1 still playing. *)
Lemma negative_target_counterexample :
  -1 <= currentFrame
          (snd (run [OpGoToFrame 3 None] (start (exampleProps 5 true true)))) /\
  currentFrame
    (snd (run [OpGoToFrame 3 None; playTo (-1); OpTick true]
            (start (exampleProps 5 true true)))) = 0 /\
  currentFrame
    (snd (run [OpGoToFrame 3 None; playTo (-1); OpTick false]
            (start (exampleProps 5 true true)))) = 0 /\
  0 <> -1 /\
  snd (run [OpGoToFrame 3 None; playTo 1; OpTick false]
         (start (exampleProps 5 true true)))
  = {| currentFrame := 1; isPlaying := true; playbackState := playing;
       intervalRef := true; stopAtRef := Some 1;
       pendingStopRef := Some paused |}.
Proof.
  split; [vm_compute; discriminate |].
  split; [vm_compute; reflexivity |].
  split; [vm_compute; reflexivity |].
  split; [discriminate |]. vm_compute. reflexivity.
Qed.

(** ** Ticking to the end, looping, restart *)

(** C3 (code bug). The claim: with looping off and no stop target, ticking
    runs to the last index and ends [stopped], once.  The code, on 10 frames
    with looping off: [play({stopAtFrame: 3})], 3 ticks (index 3, the pause
    still pending) and [restart()] give a ticking engine at index 0 with no
    stop target; its first tick commits the left-over pause and the run rests
    at index 1, [paused], never reaching index 9 or [stopped]. *)
Theorem pending_pause_blocks_run_to_end :
  loop (exampleProps 10 false true) = false /\
  snd (run (playTo 3 :: queuedTicks 3 ++ [OpRestart])
         (start (exampleProps 10 false true)))
  = {| currentFrame := 0; isPlaying := true; playbackState := playing;
       intervalRef := true; stopAtRef := None;
       pendingStopRef := Some paused |} /\
  snd (run (playTo 3 :: queuedTicks 3 ++ OpRestart :: queuedTicks 1)
         (start (exampleProps 10 false true)))
  = halted 1 paused /\
  snd (run (playTo 3 :: queuedTicks 3 ++ OpRestart :: queuedTicks 12)
         (start (exampleProps 10 false true)))
  = halted 1 paused.
Proof. vm_compute. repeat split. Qed.

(** C5 (code bug). The claim: with looping on and no stop target, [N] ticks
    from index 0 return to index 0.  The code, on 5 frames with looping on:
    [play({stopAtFrame: 3})], 3 ticks and [restart()] give a ticking engine at
    index 0 with no stop target; its first tick commits the left-over pause,
    and after 5 ticks the index is 1, not 0. *)
Theorem pending_pause_blocks_loop :
  loop (exampleProps 5 true true) = true /\
  snd (run (playTo 3 :: queuedTicks 3 ++ [OpRestart])
         (start (exampleProps 5 true true)))
  = {| currentFrame := 0; isPlaying := true; playbackState := playing;
       intervalRef := true; stopAtRef := None;
       pendingStopRef := Some paused |} /\
  snd (run (playTo 3 :: queuedTicks 3 ++ OpRestart :: queuedTicks 5)
         (start (exampleProps 5 true true)))
  = halted 1 paused /\
  currentFrame
    (snd (run (playTo 3 :: queuedTicks 3 ++ OpRestart :: queuedTicks 5)
            (start (exampleProps 5 true true)))) <> 0.
Proof.
  split; [reflexivity |]. split; [vm_compute; reflexivity |].
  split; [vm_compute; reflexivity |]. vm_compute. discriminate.
Qed.

(** C9 (code bug). The claim: [restart()] clears a stale stop target, so
    the new run does not halt at it.  The code, on 5 frames:
    [play({stopAtFrame: 1})] and one tick reach index 1 with the pause
    pending; [restart()] does reset the index and clear the target, but the
    first tick of the new run commits the left-over pause and the run halts
    at index 1, the stale target.  After a target of 3 and 3 ticks it halts
    at index 1 likewise. *)
Theorem restart_halts_on_pending_pause :
  snd (run (playTo 1 :: queuedTicks 1 ++ [OpRestart])
         (start (exampleProps 5 true true)))
  = {| currentFrame := 0; isPlaying := true; playbackState := playing;
       intervalRef := true; stopAtRef := None;
       pendingStopRef := Some paused |} /\
  snd (run (playTo 1 :: queuedTicks 1 ++ OpRestart :: queuedTicks 1)
         (start (exampleProps 5 true true)))
  = halted 1 paused /\
  snd (run (playTo 3 :: queuedTicks 3 ++ OpRestart :: queuedTicks 1)
         (start (exampleProps 5 true true)))
  = halted 1 paused.
Proof. vm_compute. repeat split. Qed.

(** ** Commands on an empty frame list *)

(** C4 (amended). On an empty frame list, in any state the engine can be in,
    [play], [restart] and [goToFrame] without [autoPause] change nothing;
    [pause] and [goToFrame] with [autoPause] change [playbackState] to
    [paused] and nothing else; [stop] resets to index 0, [stopped], no stop
    target. *)
Theorem empty_frames_commands (p : Props) (s : State) :
  Inv (p, s) ->
  frames p = [] ->
  (forall o, snd (step (p, s) (OpPlay o)) = s) /\
  snd (step (p, s) OpRestart) = s /\
  (forall i o, optAutoPause o = false ->
     snd (step (p, s) (OpGoToFrame i o)) = s) /\
  snd (step (p, s) OpPause)
  = {| currentFrame := currentFrame s; isPlaying := isPlaying s;
       playbackState := paused; intervalRef := intervalRef s;
       stopAtRef := stopAtRef s; pendingStopRef := pendingStopRef s |} /\
  (forall i o, optAutoPause o = true ->
     snd (step (p, s) (OpGoToFrame i o)) = snd (step (p, s) OpPause)) /\
  (currentFrame (snd (step (p, s) OpStop)) = 0 /\
   playbackState (snd (step (p, s) OpStop)) = stopped /\
   stopAtRef (snd (step (p, s) OpStop)) = None).
Proof.
  intros HI Hf.
  assert (HN : framesLength p = 0) by (unfold framesLength; rewrite Hf; reflexivity).
  destruct s as [c ip ps ir t pend]. unfold Inv in HI. cbn in HI.
  destruct HI as (Hc & -> & _ & Hir & Hz & _).
  destruct (Hz HN) as [-> ->]. cbn in Hir. subst ir.
  unfold safeLastIndex, Js.Math_max in Hc. rewrite HN in Hc.
  assert (c = 0) as -> by lia.
  repeat split; intros; hook_unfold; unfold clampFrame; cbn; rewrite ?HN; cbn;
    rewrite ?transition_value; try reflexivity.
  - rewrite H. reflexivity.
  - rewrite H. cbn. rewrite transition_value. reflexivity.
Qed.

Lemma empty_frames_commands_witness :
  (Inv (defaultProps [], mount (defaultProps [])) /\
   frames (defaultProps []) = []) /\
  snd (step (defaultProps [], mount (defaultProps [])) OpRestart)
  = mount (defaultProps []).
Proof.
  assert (H1 : Inv (defaultProps [], mount (defaultProps [])))
    by (vm_compute; repeat split; intros; discriminate || reflexivity).
  assert (H2 : frames (defaultProps []) = []) by reflexivity.
  split; [exact (conj H1 H2) |].
  exact (proj1 (proj2 (empty_frames_commands (defaultProps [])
                         (mount (defaultProps [])) H1 H2))).
Defined.

(** C4 as stated fails for [pause()]: on an empty frame list a freshly
    mounted engine is [stopped], and [pause()] makes it [paused]. *)
Lemma pause_on_empty_counterexample :
  frames (defaultProps []) = [] /\
  playbackState (mount (defaultProps [])) = stopped /\
  playbackState (snd (step (defaultProps [], mount (defaultProps [])) OpPause))
  = paused /\
  snd (step (defaultProps [], mount (defaultProps [])) OpPause)
  <> mount (defaultProps []).
Proof.
  repeat split; try (vm_compute; reflexivity).
  vm_compute. discriminate.
Qed.

(** ** The tick interval *)

Lemma SFcompare_finite_refl (s : bool) (m : positive) (e : Z) :
  SFcompare (S754_finite s m e) (S754_finite s m e) = Some Eq.
Proof. cbn. rewrite Z.compare_refl, Pos.compare_refl. destruct s; reflexivity. Qed.

(** The guard [fps > 0] fails exactly on [NaN] and on the numbers [<= 0]. *)
Lemma gt_zero_false_iff (x : float) :
  Js.gt x 0%float = false <-> nanOrNonPositive x = true.
Proof.
  unfold Js.gt, nanOrNonPositive, PrimFloat.is_nan.
  rewrite FloatAxioms.ltb_spec, FloatAxioms.leb_spec, FloatAxioms.eqb_spec.
  change (Prim2SF 0) with (S754_zero false).
  destruct (Prim2SF x) as [s | s | | s m e].
  - cbn. tauto.
  - destruct s; cbn; split; congruence.
  - cbn. tauto.
  - unfold SFeqb. rewrite SFcompare_finite_refl.
    destruct s; cbn; split; congruence.
Qed.

Lemma nanOrNonPositive_examples :
  nanOrNonPositive 0%float = true /\
  nanOrNonPositive (-0)%float = true /\
  nanOrNonPositive (-12)%float = true /\
  nanOrNonPositive PrimFloat.nan = true /\
  nanOrNonPositive PrimFloat.neg_infinity = true /\
  nanOrNonPositive PrimFloat.infinity = false.
Proof. vm_compute. repeat split. Qed.

(** C7 (amended). On a non-empty frame list with no duration override, every
    [fps] that is [NaN] or not above zero (zero, negative, [-Infinity]) gives
    the default interval [1000 / 24], which is positive and finite. *)
Theorem frameInterval_falls_back (p : Props) :
  frames p <> [] ->
  durationOverride p = None ->
  nanOrNonPositive (fps p) = true ->
  frameInterval p = (1000 / DEFAULT_FPS)%float /\
  PrimFloat.ltb 0 (frameInterval p) = true /\
  Js.isFinite (frameInterval p) = true.
Proof.
  intros Hf Hd Hx.
  assert (E : frameInterval p = (1000 / DEFAULT_FPS)%float).
  { unfold frameInterval, framesLength.
    destruct (frames p) as [| f fs]; [contradiction |].
    cbn [List.length]. destruct (Z.eqb_spec (Z.of_nat (S (List.length fs))) 0); [lia |].
    rewrite Hd. unfold safeFps.
    rewrite (proj2 (gt_zero_false_iff (fps p)) Hx). reflexivity. }
  rewrite E. vm_compute. repeat split.
Qed.

Lemma frameInterval_falls_back_witness :
  (frames zeroFpsProps <> [] /\
   durationOverride zeroFpsProps = None /\
   nanOrNonPositive (fps zeroFpsProps) = true) /\
  frameInterval zeroFpsProps = (1000 / 24)%float.
Proof.
  assert (H1 : frames zeroFpsProps <> []) by (vm_compute; discriminate).
  assert (H2 : durationOverride zeroFpsProps = None) by reflexivity.
  assert (H3 : nanOrNonPositive (fps zeroFpsProps) = true)
    by (vm_compute; reflexivity).
  split; [exact (conj H1 (conj H2 H3)) |].
  exact (proj1 (frameInterval_falls_back zeroFpsProps H1 H2 H3)).
Defined.

(** C7 as stated fails for [fps = +Infinity]: it is non-finite, yet it passes
    the guard [fps > 0], and the interval is [1000 / Infinity = 0]. *)
Lemma infinite_fps_counterexample :
  frames infiniteFpsProps <> [] /\
  duration infiniteFpsProps = None /\
  Js.isFinite (fps infiniteFpsProps) = false /\
  frameInterval infiniteFpsProps = 0%float /\
  PrimFloat.eqb (frameInterval infiniteFpsProps) (1000 / 24)%float = false.
Proof.
  split; [vm_compute; discriminate |].
  repeat split; vm_compute; reflexivity.
Qed.

(** ** The stop target *)

Lemma stop_target_after (p : Props) (s : State) (op : Op) :
  stopAtRef (snd (step (p, s) op))
  = match op with
    | OpPause | OpGoToFrame _ _ => stopAtRef s
    | OpStop => None
    | OpRestart => if framesLength p =? 0 then stopAtRef s else None
    | OpPlay o =>
        if framesLength p =? 0 then stopAtRef s
        else option_map (clampFrame p) (optStopAtFrame o)
    | OpTick eager =>
        if intervalRef s && findsPending p eager s then None
        else stopAtRef s
    | OpSetProps p' =>
        if propsChangeClears p p' then None else stopAtRef s
    end.
Proof.
  destruct s as [c ip ps ir t pend].
  cbn [currentFrame isPlaying playbackState intervalRef stopAtRef pendingStopRef].
  destruct op as [o | | | | i o | eager | p'].
  - hook_unfold. cbn.
    destruct (framesLength p =? 0); cbn;
      [| destruct (optStopAtFrame o); cbn];
      destruct ip; cbn; destruct (Js.isFinite (frameInterval p)); cbn;
      destruct ir; reflexivity.
  - hook_unfold. cbn. destruct ir; reflexivity.
  - hook_unfold. cbn. destruct ir; reflexivity.
  - hook_unfold. cbn.
    destruct (framesLength p =? 0); cbn;
      destruct ip; cbn; destruct (Js.isFinite (frameInterval p)); cbn;
      destruct ir; reflexivity.
  - hook_unfold. cbn.
    destruct (optAutoPause o); cbn;
      destruct ip; cbn; destruct (Js.isFinite (frameInterval p)); cbn;
      destruct ir; reflexivity.
  - unfold findsPending, tickKind.
    cbn [currentFrame isPlaying playbackState intervalRef stopAtRef pendingStopRef].
    destruct ir; [| reflexivity]. cbn [negb andb].
    destruct eager; hook_unfold; cbn;
      destruct (framesLength p =? 0); cbn;
      destruct pend; cbn;
      try (destruct t as [x |]; cbn; [destruct (c + 1 >=? x); cbn |]);
      try (destruct (c + 1 >? framesLength p - 1); cbn;
           [destruct (loop p); cbn |]);
      destruct ip; cbn; destruct (Js.isFinite (frameInterval p)); cbn;
      reflexivity.
  - unfold propsChangeClears. hook_unfold. cbn.
    destruct (framesLength p =? framesLength p'); cbn;
      destruct (Bool.eqb (autoPlay p) (autoPlay p')); cbn;
      destruct (autoPlay p'); cbn;
      destruct (framesLength p' =? 0); cbn;
      destruct ip; cbn;
      destruct (Js.isFinite (frameInterval p')); cbn;
      destruct ir; reflexivity.
Qed.

(** C8 (amended). From any state, the stop target after an operation is:
    [None] after [stop()]; after [play] and [restart()] on a non-empty frame
    list, the clamped [stopAtFrame], or [None] when none is given (on an
    empty list they leave it alone); [None] after a change of props that
    empties the frame list or re-runs autoplay; [None] after a tick whose
    interval callback finds a transition pending in [pendingStopRef]; and
    unchanged after [pause], [goToFrame] and every other tick.  Hence a new
    target comes only from a [play] that supplies it, a target disappears
    only by one of the clearing operations above, and a loop-wrap tick with
    nothing pending leaves the target as it is. *)
Theorem stop_target_frame (p : Props) (s : State) (op : Op) :
  stopAtRef (snd (step (p, s) op))
  = match op with
    | OpPause | OpGoToFrame _ _ => stopAtRef s
    | OpStop => None
    | OpRestart => if framesLength p =? 0 then stopAtRef s else None
    | OpPlay o =>
        if framesLength p =? 0 then stopAtRef s
        else option_map (clampFrame p) (optStopAtFrame o)
    | OpTick eager =>
        if intervalRef s && findsPending p eager s then None
        else stopAtRef s
    | OpSetProps p' =>
        if propsChangeClears p p' then None else stopAtRef s
    end /\
  (forall t : Z,
     stopAtRef (snd (step (p, s) op)) = Some t ->
     stopAtRef s <> Some t ->
     exists o T, op = OpPlay o /\ optStopAtFrame o = Some T /\
                 t = clampFrame p T) /\
  (stopAtRef s <> None ->
   stopAtRef (snd (step (p, s) op)) = None ->
   op = OpStop \/ op = OpRestart \/
   (exists o, op = OpPlay o /\ optStopAtFrame o = None) \/
   (exists eager, op = OpTick eager /\ intervalRef s = true /\
                  findsPending p eager s = true) \/
   (exists p', op = OpSetProps p' /\ propsChangeClears p p' = true)) /\
  (forall eager : bool,
     tickKind p s = LoopWrap ->
     pendingStopRef s = None ->
     stopAtRef (tick p eager s) = stopAtRef s).
Proof.
  split; [apply stop_target_after |]. split; [| split].
  - rewrite stop_target_after.
    intros t Hs Hne. destruct op as [o | | | | i o | eager | p'];
      try congruence.
    + destruct (framesLength p =? 0); [congruence |].
      destruct (optStopAtFrame o) as [T |] eqn:Ho; [| discriminate].
      exists o, T. cbn in Hs. injection Hs as <-. auto.
    + destruct (framesLength p =? 0); congruence.
    + destruct (intervalRef s && findsPending p eager s); congruence.
    + destruct (propsChangeClears p p'); congruence.
  - rewrite stop_target_after.
    intros Hsome Hnone. destruct op as [o | | | | i o | eager | p'];
      try congruence; auto.
    + right. right. left. exists o. split; [reflexivity |].
      destruct (framesLength p =? 0); [congruence |].
      destruct (optStopAtFrame o); [discriminate | reflexivity].
    + right. right. right. left. exists eager. split; [reflexivity |].
      destruct (intervalRef s); [| cbn in Hnone; congruence].
      destruct (findsPending p eager s); [auto | cbn in Hnone; congruence].
    + right. right. right. right. exists p'. split; [reflexivity |].
      destruct (propsChangeClears p p'); [reflexivity | congruence].
  - intros eager Hk Hp. unfold tick. rewrite stop_target_after.
    unfold findsPending. rewrite Hk, Hp.
    destruct eager; rewrite andb_false_r; reflexivity.
Qed.

(** C8 as stated fails for the loop-wrap tick: play to frame 8 of 10 without
    autoplay, shrink the frame list to 3, tick to the last index; the next
    tick wraps to index 0 and the stop target is still 8, in either order. *)
Lemma loop_wrap_counterexample :
  tickKind (fst (run [playTo 8; OpSetProps (exampleProps 3 true false);
                      OpTick false; OpTick false]
                   (start (exampleProps 10 true false))))
           (snd (run [playTo 8; OpSetProps (exampleProps 3 true false);
                      OpTick false; OpTick false]
                   (start (exampleProps 10 true false)))) = LoopWrap /\
  currentFrame (snd (run [playTo 8; OpSetProps (exampleProps 3 true false);
                          OpTick false; OpTick false]
                       (start (exampleProps 10 true false)))) = 2 /\
  currentFrame (snd (run [playTo 8; OpSetProps (exampleProps 3 true false);
                          OpTick false; OpTick false; OpTick false]
                       (start (exampleProps 10 true false)))) = 0 /\
  stopAtRef (snd (run [playTo 8; OpSetProps (exampleProps 3 true false);
                       OpTick false; OpTick false; OpTick false]
                    (start (exampleProps 10 true false)))) = Some 8 /\
  stopAtRef (snd (run [playTo 8; OpSetProps (exampleProps 3 true false);
                       OpTick false; OpTick false; OpTick true]
                    (start (exampleProps 10 true false)))) = Some 8.
Proof. vm_compute. repeat split. Qed.
(** ** Scenarios *)

(** A frame list shrinking from 5 frames (index 4) to 2 re-clamps the index
    to 1. *)
Example shrink_reclamps :
  currentFrame
    (snd (run [OpGoToFrame 4 None; OpSetProps (exampleProps 2 true false)]
            (start (exampleProps 5 true false)))) = 1.
Proof. vm_compute. reflexivity. Qed.

(** A frame list that becomes empty while playing forces the reset. *)
Example emptied_while_playing :
  snd (run [OpTick false; OpTick false; OpSetProps (exampleProps 0 true true)]
         (start (exampleProps 5 true true))) = halted 0 stopped.
Proof. vm_compute. reflexivity. Qed.

(** [pause()] then [play()] resumes from the same index. *)
Example pause_then_play_resumes :
  snd (run [OpTick false; OpTick false; OpPause; OpPlay None; OpTick false]
         (start (exampleProps 5 true true))) = running 3 None.
Proof. vm_compute. reflexivity. Qed.

(** * Further properties of the component *)

Lemma clampFrame_id_on_range (p : Props) (i : Z) :
  clampFrame p (clampFrame p i) = clampFrame p i.
Proof.
  unfold clampFrame. destruct (framesLength p =? 0); [reflexivity |].
  pose proof (safeLastIndex_nonneg p).
  unfold clamp, Js.Math_min, Js.Math_max. lia.
Qed.

(** ** Composition of commands *)

(** X1. Every command of the handle and every change of props is idempotent:
    issuing it twice in a row leaves the engine where the first left it. *)
Theorem commands_idempotent (e : Engine) (op : Op) :
  (forall eager : bool, op <> OpTick eager) ->
  step (step e op) op = step e op.
Proof.
  intros Hop. destruct e as [p s]. destruct s as [c ip ps ir t pend].
  destruct op as [o | | | | i o | eager | p'];
    [| | | | | exfalso; exact (Hop eager eq_refl) |].
  - hook_unfold. cbn. destruct (framesLength p =? 0); cbn.
    + destruct ip; cbn; destruct (Js.isFinite (frameInterval p)); cbn;
        destruct ir; cbn; reflexivity.
    + destruct (optStopAtFrame o); cbn; rewrite !transition_value;
        destruct (Js.isFinite (frameInterval p)); cbn; destruct ir; cbn;
        reflexivity.
  - hook_unfold. cbn. rewrite !transition_value. destruct ir; reflexivity.
  - hook_unfold. cbn. rewrite !transition_value. destruct ir; reflexivity.
  - hook_unfold. cbn. destruct (framesLength p =? 0); cbn.
    + destruct ip; cbn; destruct (Js.isFinite (frameInterval p)); cbn;
        destruct ir; cbn; reflexivity.
    + rewrite !transition_value.
      destruct (Js.isFinite (frameInterval p)); cbn; destruct ir; cbn;
        reflexivity.
  - hook_unfold. cbn.
    destruct (optAutoPause o); cbn; rewrite ?transition_value;
      destruct ip; cbn; destruct (Js.isFinite (frameInterval p)); cbn;
      destruct ir; cbn; reflexivity.
  - assert (Hc : clampFrame p' (clampFrame p' c) = clampFrame p' c).
    { apply clampFrame_id_on_range. }
    hook_unfold. cbn. rewrite Z.eqb_refl, eqb_reflx. cbn.
    destruct (framesLength p =? framesLength p'); cbn;
      destruct (Bool.eqb (autoPlay p) (autoPlay p')); cbn;
      destruct (autoPlay p'); cbn;
      destruct (framesLength p' =? 0); cbn; rewrite ?transition_value;
      destruct ip; cbn;
      destruct (Js.isFinite (frameInterval p')); cbn;
      destruct ir; cbn; reflexivity.
Qed.

Lemma commands_idempotent_witness :
  (forall eager : bool, OpGoToFrame 9 None <> OpTick eager) /\
  step (step (exampleProps 5 true true, running 2 (Some 3))
             (OpGoToFrame 9 None)) (OpGoToFrame 9 None)
  = step (exampleProps 5 true true, running 2 (Some 3)) (OpGoToFrame 9 None).
Proof.
  assert (H1 : forall eager : bool, OpGoToFrame 9 None <> OpTick eager)
    by (intros eager; discriminate).
  split; [exact H1 |].
  exact (commands_idempotent (exampleProps 5 true true, running 2 (Some 3))
           (OpGoToFrame 9 None) H1).
Defined.

(** X2. On a non-empty frame list [play] undoes [pause]: pausing and then
    playing gives the state that playing alone gives, at the same frame. *)
Theorem pause_then_play (p : Props) (s : State) (o : option PlayOptions) :
  0 < framesLength p ->
  step (step (p, s) OpPause) (OpPlay o) = step (p, s) (OpPlay o) /\
  getCurrentFrame (snd (step (step (p, s) OpPause) (OpPlay o)))
  = getCurrentFrame s /\
  getPlaybackState (snd (step (step (p, s) OpPause) (OpPlay o))) = playing.
Proof.
  intros HN. destruct s as [c ip ps ir t pend].
  hook_unfold. unfold getCurrentFrame, getPlaybackState. cbn.
  case_cond. rewrite !transition_value.
  destruct (optStopAtFrame o); cbn;
    destruct (Js.isFinite (frameInterval p)); cbn; destruct ir; cbn;
    rewrite ?transition_value; repeat split.
Qed.

Lemma pause_then_play_witness :
  0 < framesLength (exampleProps 5 true true) /\
  getCurrentFrame
    (snd (step (step (exampleProps 5 true true, running 3 None) OpPause)
            (OpPlay None))) = 3.
Proof.
  assert (H1 : 0 < framesLength (exampleProps 5 true true)) by reflexivity.
  split; [exact H1 |].
  exact (proj1 (proj2 (pause_then_play (exampleProps 5 true true)
                         (running 3 None) None H1))).
Defined.

(** X3. On a non-empty frame list [restart()] is [stop()] followed by
    [play()] without options. *)
Theorem restart_is_stop_then_play (p : Props) (s : State) :
  0 < framesLength p ->
  step (p, s) OpRestart = step (step (p, s) OpStop) (OpPlay None).
Proof.
  intros HN. destruct s as [c ip ps ir t pend]. hook_unfold. cbn.
  case_cond. rewrite !transition_value.
  destruct (Js.isFinite (frameInterval p)); cbn; destruct ir; reflexivity.
Qed.

Lemma restart_is_stop_then_play_witness :
  0 < framesLength (exampleProps 5 true true) /\
  step (exampleProps 5 true true, running 3 (Some 4)) OpRestart
  = step (step (exampleProps 5 true true, running 3 (Some 4)) OpStop)
         (OpPlay None).
Proof.
  assert (H1 : 0 < framesLength (exampleProps 5 true true)) by reflexivity.
  split; [exact H1 |].
  exact (restart_is_stop_then_play (exampleProps 5 true true)
           (running 3 (Some 4)) H1).
Defined.

(** ** What holds of every reachable state *)

(** X4. After any sequence of operations an interval is armed exactly when
    the engine is playing with a finite tick interval; [isPlaying] and
    [playbackState = playing] agree; and [pendingStopRef] holds nothing or
    one of [paused] and [stopped]. *)
Theorem timer_armed_iff_playing (p : Props) (ops : list Op) :
  (intervalRef (snd (run ops (start p))) = true <->
   getPlaybackState (snd (run ops (start p))) = playing /\
   Js.isFinite (frameInterval (fst (run ops (start p)))) = true) /\
  (isPlaying (snd (run ops (start p))) = true <->
   getPlaybackState (snd (run ops (start p))) = playing) /\
  (pendingStopRef (snd (run ops (start p))) = None \/
   pendingStopRef (snd (run ops (start p))) = Some paused \/
   pendingStopRef (snd (run ops (start p))) = Some stopped).
Proof.
  pose proof (reachable_Consistent p ops) as H.
  destruct (run ops (start p)) as [p' s]. unfold Consistent in H.
  destruct H as (_ & Hp & Hpl & Hir & _). unfold getPlaybackState. cbn.
  split; [| split; assumption].
  rewrite Hir, andb_true_iff. tauto.
Qed.

(** X5. After any sequence of operations that ends with an empty frame list,
    the engine sits at index 0 with no timer and no stop target, it is not
    playing, and the placeholder is rendered. *)
Theorem empty_list_never_plays (p : Props) (ops : list Op) :
  frames (fst (run ops (start p))) = [] ->
  getCurrentFrame (snd (run ops (start p))) = 0 /\
  isPlaying (snd (run ops (start p))) = false /\
  intervalRef (snd (run ops (start p))) = false /\
  stopAtRef (snd (run ops (start p))) = None /\
  getPlaybackState (snd (run ops (start p))) <> playing /\
  render (fst (run ops (start p))) (snd (run ops (start p))) = Placeholder.
Proof.
  pose proof (reachable_Consistent p ops) as H.
  destruct (run ops (start p)) as [p' s]. cbn [fst snd]. intros Hf.
  assert (HN : framesLength p' = 0)
    by (unfold framesLength; rewrite Hf; reflexivity).
  destruct s as [c ip ps ir t pend]. unfold Consistent in H. cbn in H.
  destruct H as (Hc & _ & Hpl & Hir & Hz & _).
  destruct (Hz HN) as [-> ->]. cbn in Hir. subst ir.
  unfold safeLastIndex, Js.Math_max in Hc. rewrite HN in Hc.
  assert (c = 0) as -> by lia.
  unfold getPlaybackState, getCurrentFrame, render. cbn. rewrite HN. cbn.
  repeat split. intros E. apply Hpl in E. discriminate.
Qed.

Lemma empty_list_never_plays_witness :
  frames (fst (run (playTo 3 :: queuedTicks 3
                    ++ [OpSetProps (exampleProps 0 true true); OpPlay None])
                 (start (exampleProps 5 true true)))) = [] /\
  getPlaybackState
    (snd (run (playTo 3 :: queuedTicks 3
               ++ [OpSetProps (exampleProps 0 true true); OpPlay None])
            (start (exampleProps 5 true true)))) <> playing.
Proof.
  assert (H1 : frames (fst (run (playTo 3 :: queuedTicks 3
                    ++ [OpSetProps (exampleProps 0 true true); OpPlay None])
                 (start (exampleProps 5 true true)))) = [])
    by reflexivity.
  split; [exact H1 |].
  exact (proj1 (proj2 (proj2 (proj2 (proj2
           (empty_list_never_plays (exampleProps 5 true true)
              (playTo 3 :: queuedTicks 3
               ++ [OpSetProps (exampleProps 0 true true); OpPlay None])
              H1)))))).
Defined.

Lemma step_not_idle (e : Engine) (op : Op) :
  Consistent e -> playbackState (snd e) <> idle ->
  playbackState (snd (step e op)) <> idle.
Proof.
  destruct e as [p s]. destruct s as [c ip ps ir t pend].
  unfold Consistent. cbn. intros (_ & Hp & _) He.
  destruct op as [o | | | | i o | eager | p']; hook_unfold; cbn.
  - destruct (framesLength p =? 0); cbn;
      [| destruct (optStopAtFrame o); cbn; rewrite !transition_value];
      destruct ip; cbn; destruct (Js.isFinite (frameInterval p)); cbn;
      destruct ir; cbn; assumption || discriminate.
  - rewrite !transition_value. destruct ir; cbn; discriminate.
  - rewrite !transition_value. destruct ir; cbn; discriminate.
  - destruct (framesLength p =? 0); cbn; rewrite ?transition_value;
      destruct ip; cbn; destruct (Js.isFinite (frameInterval p)); cbn;
      destruct ir; cbn; assumption || discriminate.
  - destruct (optAutoPause o); cbn; rewrite ?transition_value;
      destruct ip; cbn; destruct (Js.isFinite (frameInterval p)); cbn;
      destruct ir; cbn; assumption || discriminate.
  - destruct ir; cbn; [| assumption].
    pending_cases Hp; destruct eager; cbn;
      destruct (framesLength p =? 0); cbn;
      try (destruct t as [x |]; cbn; [destruct (c + 1 >=? x); cbn |]);
      try (destruct (c + 1 >? framesLength p - 1); cbn;
           [destruct (loop p); cbn |]);
      rewrite ?transition_value;
      destruct ip; cbn; destruct (Js.isFinite (frameInterval p)); cbn;
      assumption || discriminate.
  - destruct (framesLength p =? framesLength p'); cbn;
      destruct (Bool.eqb (autoPlay p) (autoPlay p')); cbn;
      destruct (autoPlay p'); cbn;
      destruct (framesLength p' =? 0); cbn; rewrite ?transition_value;
      destruct ip; cbn;
      destruct (Js.isFinite (frameInterval p')); cbn;
      destruct ir; cbn; assumption || discriminate.
Qed.

(** X6. No operation leads back to [idle]: once the playback state of an
    engine has left [idle] it stays away from it, whatever follows. *)
Theorem never_back_to_idle (e : Engine) (ops : list Op) :
  Inv e ->
  getPlaybackState (snd e) <> idle ->
  getPlaybackState (snd (run ops e)) <> idle.
Proof.
  unfold getPlaybackState. intros HI. apply Inv_Consistent in HI.
  revert e HI. induction ops as [| op ops IH]; intros e HI He; [exact He |].
  cbn [run fold_left]. apply IH.
  - apply step_Consistent. exact HI.
  - apply step_not_idle; assumption.
Qed.

Lemma never_back_to_idle_witness :
  (Inv (start (exampleProps 5 true true)) /\
   getPlaybackState (snd (start (exampleProps 5 true true))) <> idle) /\
  getPlaybackState
    (snd (run [OpPause; OpTick false; OpStop] (start (exampleProps 5 true true))))
  <> idle.
Proof.
  assert (H0 : Inv (start (exampleProps 5 true true)))
    by (vm_compute; repeat split; intros; discriminate || reflexivity).
  assert (H1 : getPlaybackState (snd (start (exampleProps 5 true true))) <> idle)
    by (vm_compute; discriminate).
  split; [exact (conj H0 H1) |].
  exact (never_back_to_idle (start (exampleProps 5 true true))
           [OpPause; OpTick false; OpStop] H0 H1).
Defined.

(** ** Mounting and changes of props *)

(** X7. What mounting gives: on an empty frame list the reset state; on a
    non-empty one the clamped [initialFrame], playing with the timer armed
    (when the interval is finite) if [autoPlay] is on, and [idle] with no
    timer if it is off. *)
Theorem mount_cases (p : Props) :
  mount p
  = if framesLength p =? 0 then halted 0 stopped
    else if autoPlay p then
      {| currentFrame := clampFrame p (initialFrame p); isPlaying := true;
         playbackState := playing;
         intervalRef := Js.isFinite (frameInterval p);
         stopAtRef := None; pendingStopRef := None |}
    else
      {| currentFrame := clampFrame p (initialFrame p); isPlaying := false;
         playbackState := idle; intervalRef := false;
         stopAtRef := None; pendingStopRef := None |}.
Proof.
  pose proof (clampFrame_id_on_range p (initialFrame p)) as Hc.
  unfold mount, initialState. hook_unfold. cbn.
  destruct (framesLength p =? 0) eqn:E; cbn.
  - rewrite orb_true_r. reflexivity.
  - rewrite orb_false_r. destruct (autoPlay p); cbn; rewrite Hc;
      [destruct (Js.isFinite (frameInterval p)) |]; reflexivity.
Qed.

(** X8. When a non-empty frame list is replaced by an empty one, the engine
    is reset whatever it was doing: index 0, [stopped], timer released, stop
    target cleared. *)
Theorem frames_emptied_resets (p p' : Props) (s : State) :
  Inv (p, s) ->
  0 < framesLength p ->
  frames p' = [] ->
  step (p, s) (OpSetProps p') = (p', halted 0 stopped).
Proof.
  intros HI HN Hf.
  assert (HN' : framesLength p' = 0)
    by (unfold framesLength; rewrite Hf; reflexivity).
  destruct s as [c ip ps ir t pend]. unfold Inv in HI. cbn in HI.
  destruct HI as (_ & -> & _).
  hook_unfold. cbn. rewrite HN'.
  destruct (Z.eqb_spec (framesLength p) 0); [lia |]. cbn.
  rewrite orb_true_r, transition_value. cbn. destruct ir; reflexivity.
Qed.

Lemma frames_emptied_resets_witness :
  (Inv (exampleProps 5 true true, mount (exampleProps 5 true true)) /\
   0 < framesLength (exampleProps 5 true true) /\
   frames (exampleProps 0 true true) = []) /\
  step (exampleProps 5 true true, mount (exampleProps 5 true true))
       (OpSetProps (exampleProps 0 true true))
  = (exampleProps 0 true true, halted 0 stopped).
Proof.
  assert (H1 : Inv (exampleProps 5 true true, mount (exampleProps 5 true true)))
    by (vm_compute; repeat split; intros; discriminate || reflexivity).
  assert (H2 : 0 < framesLength (exampleProps 5 true true)) by reflexivity.
  assert (H3 : frames (exampleProps 0 true true) = []) by reflexivity.
  split; [exact (conj H1 (conj H2 H3)) |].
  exact (frames_emptied_resets (exampleProps 5 true true)
           (exampleProps 0 true true) (mount (exampleProps 5 true true))
           H1 H2 H3).
Defined.

(** X9. With [autoPlay] on, any change of the number of frames to a non-empty
    list starts playback, also from [paused] or [stopped]: the index is
    re-clamped, the state becomes [playing], and the stop target is dropped. *)
Theorem length_change_replays (p p' : Props) (s : State) :
  Inv (p, s) ->
  framesLength p <> framesLength p' ->
  0 < framesLength p' ->
  autoPlay p' = true ->
  snd (step (p, s) (OpSetProps p'))
  = {| currentFrame := clampFrame p' (currentFrame s); isPlaying := true;
       playbackState := playing;
       intervalRef := Js.isFinite (frameInterval p');
       stopAtRef := None; pendingStopRef := None |}.
Proof.
  intros HI Hlen HN' Ha.
  destruct s as [c ip ps ir t pend]. unfold Inv in HI. cbn in HI.
  destruct HI as (_ & -> & _).
  hook_unfold. cbn. rewrite Ha.
  destruct (Z.eqb_spec (framesLength p) (framesLength p')); [contradiction |].
  destruct (Z.eqb_spec (framesLength p') 0); [lia |]. cbn.
  rewrite transition_value.
  destruct (Js.isFinite (frameInterval p')); cbn; destruct ir; reflexivity.
Qed.

Lemma length_change_replays_witness :
  (Inv (exampleProps 5 true true, halted 4 paused) /\
   framesLength (exampleProps 5 true true)
   <> framesLength (exampleProps 3 true true) /\
   0 < framesLength (exampleProps 3 true true) /\
   autoPlay (exampleProps 3 true true) = true) /\
  snd (step (exampleProps 5 true true, halted 4 paused)
            (OpSetProps (exampleProps 3 true true)))
  = running 2 None.
Proof.
  assert (H1 : Inv (exampleProps 5 true true, halted 4 paused))
    by (vm_compute; repeat split; intros; discriminate || reflexivity).
  assert (H2 : framesLength (exampleProps 5 true true)
               <> framesLength (exampleProps 3 true true))
    by (vm_compute; discriminate).
  assert (H3 : 0 < framesLength (exampleProps 3 true true)) by reflexivity.
  assert (H4 : autoPlay (exampleProps 3 true true) = true) by reflexivity.
  split; [exact (conj H1 (conj H2 (conj H3 H4))) |].
  exact (length_change_replays (exampleProps 5 true true)
           (exampleProps 3 true true) (halted 4 paused) H1 H2 H3 H4).
Defined.

(** X10. A change of props to a non-empty list that does not re-run autoplay
    with [autoPlay] on (it is off, or neither it nor the number of frames
    changed) only re-clamps the index and re-syncs the timer: playback state
    and stop target stay, even a target beyond the new last index. *)
Theorem props_change_keeps_playback (p p' : Props) (s : State) :
  Inv (p, s) ->
  0 < framesLength p' ->
  autoPlay p' = false \/
  (framesLength p = framesLength p' /\ autoPlay p = autoPlay p') ->
  snd (step (p, s) (OpSetProps p'))
  = {| currentFrame := clampFrame p' (currentFrame s);
       isPlaying := isPlaying s;
       playbackState := playbackState s;
       intervalRef := isPlaying s && Js.isFinite (frameInterval p');
       stopAtRef := stopAtRef s; pendingStopRef := None |}.
Proof.
  intros HI HN' Hcase.
  destruct s as [c ip ps ir t pend]. unfold Inv in HI. cbn in HI.
  destruct HI as (Hc & -> & _).
  assert (Hsame : framesLength p = framesLength p' -> clampFrame p' c = c).
  { intros E. apply clampFrame_id. unfold safeLastIndex, Js.Math_max in Hc.
    rewrite E in Hc. lia. }
  hook_unfold. cbn.
  destruct (Z.eqb_spec (framesLength p') 0); [lia |].
  destruct Hcase as [Ha | [El Ea]].
  - rewrite Ha. cbn.
    destruct (Z.eqb_spec (framesLength p) (framesLength p')) as [E | E]; cbn;
      [rewrite (Hsame E) |];
      destruct (Bool.eqb (autoPlay p) false); cbn;
      destruct ip; cbn; destruct (Js.isFinite (frameInterval p')); cbn;
      destruct ir; reflexivity.
  - rewrite (Hsame El), Ea, El, Z.eqb_refl, eqb_reflx. cbn.
    destruct ip; cbn; destruct (Js.isFinite (frameInterval p')); cbn;
      destruct ir; reflexivity.
Qed.

Lemma props_change_keeps_playback_witness :
  (Inv (exampleProps 10 true false, running 0 (Some 8)) /\
   0 < framesLength (exampleProps 3 true false) /\
   (autoPlay (exampleProps 3 true false) = false \/
    (framesLength (exampleProps 10 true false)
     = framesLength (exampleProps 3 true false) /\
     autoPlay (exampleProps 10 true false)
     = autoPlay (exampleProps 3 true false)))) /\
  snd (step (exampleProps 10 true false, running 0 (Some 8))
            (OpSetProps (exampleProps 3 true false)))
  = running 0 (Some 8).
Proof.
  assert (H1 : Inv (exampleProps 10 true false, running 0 (Some 8))).
  { vm_compute. repeat split; intros; try discriminate.
    match goal with H : Some _ = Some _ |- _ => injection H as <- end.
    discriminate. }
  assert (H2 : 0 < framesLength (exampleProps 3 true false)) by reflexivity.
  assert (H3 : autoPlay (exampleProps 3 true false) = false \/
    (framesLength (exampleProps 10 true false)
     = framesLength (exampleProps 3 true false) /\
     autoPlay (exampleProps 10 true false)
     = autoPlay (exampleProps 3 true false))) by (left; reflexivity).
  split; [exact (conj H1 (conj H2 H3)) |].
  exact (props_change_keeps_playback (exampleProps 10 true false)
           (exampleProps 3 true false) (running 0 (Some 8)) H1 H2 H3).
Defined.

(** ** The tick interval with a duration *)

Lemma gt_zero_truthy (d : float) : Js.gt d 0%float = true -> Js.truthy d = true.
Proof.
  unfold Js.gt, Js.truthy, PrimFloat.is_nan, PrimFloat.is_zero.
  rewrite FloatAxioms.ltb_spec, !FloatAxioms.eqb_spec.
  change (Prim2SF 0) with (S754_zero false).
  destruct (Prim2SF d) as [s | s | | s m e].
  - cbn. discriminate.
  - destruct s; cbn; [discriminate | reflexivity].
  - cbn. discriminate.
  - unfold SFeqb at 1. rewrite SFcompare_finite_refl.
    destruct s; cbn; [discriminate | reflexivity].
Qed.

(** X11. On a non-empty frame list a given [duration] decides the interval
    exactly when it is greater than zero: then the interval is
    [duration / frames.length] whatever [fps] is; a duration that is zero,
    negative or [NaN] is ignored as if it were left out. *)
Theorem frameInterval_with_duration (p : Props) (d : float) :
  frames p <> [] ->
  duration p = Some d ->
  frameInterval p
  = if Js.gt d 0%float
    then (d / Js.ofLength (List.length (frames p)))%float
    else frameInterval (withoutDuration p).
Proof.
  intros Hf Hd. unfold frameInterval, durationOverride, safeFps, framesLength.
  cbn [withoutDuration frames fps duration]. rewrite Hd.
  destruct (frames p) as [| f fs]; [contradiction |].
  cbn [List.length].
  destruct (Z.eqb_spec (Z.of_nat (S (List.length fs))) 0); [lia |].
  destruct (Js.gt d 0%float) eqn:E.
  - rewrite (gt_zero_truthy d E). reflexivity.
  - rewrite andb_false_r. reflexivity.
Qed.

Lemma frameInterval_with_duration_witness :
  (frames (durationProps 1200) <> [] /\
   duration (durationProps 1200) = Some 1200%float) /\
  frameInterval (durationProps 1200) = 240%float.
Proof.
  assert (H1 : frames (durationProps 1200) <> []) by (vm_compute; discriminate).
  assert (H2 : duration (durationProps 1200) = Some 1200%float) by reflexivity.
  split; [exact (conj H1 H2) |].
  exact (frameInterval_with_duration (durationProps 1200) 1200%float H1 H2).
Defined.

(** *** Runs of ticks *)

Lemma ticksBy_cons (p : Props) (eager : bool) (schedule : list bool)
  (s : State) :
  ticksBy p (eager :: schedule) s = ticksBy p schedule (tick p eager s).
Proof. reflexivity. Qed.

Lemma ticksBy_app (p : Props) (a b : list bool) (s : State) :
  ticksBy p (a ++ b) s = ticksBy p b (ticksBy p a s).
Proof. unfold ticksBy. apply fold_left_app. Qed.

Lemma ticksBy_no_timer (p : Props) (schedule : list bool) (s : State) :
  intervalRef s = false -> ticksBy p schedule s = s.
Proof.
  intros H. induction schedule as [| eager schedule IH]; [reflexivity |].
  rewrite ticksBy_cons, tick_no_timer; assumption.
Qed.

Lemma ticks_succ_l (p : Props) (k : nat) (s : State) :
  ticks p (S k) s = ticks p k (tick p false s).
Proof. unfold ticks. apply Nat.iter_succ_r. Qed.

Lemma ticks_succ_r (p : Props) (k : nat) (s : State) :
  ticks p (S k) s = tick p false (ticks p k s).
Proof. reflexivity. Qed.

Lemma ticks_add (p : Props) (a b : nat) (s : State) :
  ticks p (a + b) s = ticks p a (ticks p b s).
Proof. unfold ticks. apply Nat.iter_add. Qed.

(** [ticks] is [ticksBy] under the schedule with no eager tick. *)
Lemma ticks_as_schedule (p : Props) (k : nat) (s : State) :
  ticks p k s = ticksBy p (repeat false k) s.
Proof.
  revert s. induction k as [| k IH]; intros s; [reflexivity |].
  rewrite ticks_succ_l, IH. reflexivity.
Qed.

Lemma ticks_no_timer (p : Props) (k : nat) (s : State) :
  intervalRef s = false -> ticks p k s = s.
Proof.
  intros H. induction k as [| k IH]; [reflexivity |].
  rewrite ticks_succ_l, tick_no_timer; assumption.
Qed.

Section Runs.

Variable p : Props.
Hypothesis nonEmpty : 0 < framesLength p.
Hypothesis finite : Js.isFinite (frameInterval p) = true.

(** Below the stop target and the last index a run advances by one per tick,
    in either order. *)
Lemma ticksBy_running (schedule : list bool) (c : Z) (t : option Z) :
  c + Z.of_nat (List.length schedule) <= framesLength p - 1 ->
  match t with
  | Some x => c + Z.of_nat (List.length schedule) < x
  | None => True
  end ->
  ticksBy p schedule (running c t)
  = running (c + Z.of_nat (List.length schedule)) t.
Proof.
  revert c. induction schedule as [| eager schedule IH]; intros c Hc Ht.
  - cbn. rewrite Z.add_0_r. reflexivity.
  - cbn [List.length] in *. rewrite ticksBy_cons. unfold running at 1.
    rewrite tick_advance; try assumption.
    + fold (running (c + 1) t). rewrite IH.
      * f_equal. lia.
      * lia.
      * destruct t; [lia | exact I].
    + destruct t; [lia | exact I].
    + lia.
Qed.

Lemma ticks_running (k : nat) (c : Z) (t : option Z) :
  c + Z.of_nat k <= framesLength p - 1 ->
  match t with Some x => c + Z.of_nat k < x | None => True end ->
  ticks p k (running c t) = running (c + Z.of_nat k) t.
Proof.
  induction k as [| k IH]; intros Hc Ht.
  - cbn. rewrite Z.add_0_r. reflexivity.
  - rewrite ticks_succ_r, IH.
    + unfold running. rewrite tick_advance; try assumption.
      * f_equal. lia.
      * destruct t; [lia | exact I].
      * lia.
    + lia.
    + destruct t; [lia | exact I].
Qed.

Lemma ticksBy_loop_position (schedule : list bool) (c : Z) (t : option Z) :
  loop p = true ->
  0 <= c <= framesLength p - 1 ->
  match t with Some x => framesLength p < x | None => True end ->
  ticksBy p schedule (running c t)
  = running ((c + Z.of_nat (List.length schedule)) mod framesLength p) t.
Proof.
  intros Hl. revert c. induction schedule as [| eager schedule IH]; intros c Hc Ht.
  - cbn. rewrite Z.add_0_r, Z.mod_small by lia. reflexivity.
  - cbn [List.length]. rewrite ticksBy_cons. unfold running at 1.
    destruct (Z_lt_le_dec (framesLength p - 1) (c + 1)) as [Hw | Hw].
    + rewrite tick_wrap by (assumption || (destruct t; [lia | exact I])).
      fold (running 0 t). rewrite IH by (assumption || lia). f_equal.
      replace (c + Z.of_nat (S (List.length schedule)))
        with (Z.of_nat (List.length schedule) + 1 * framesLength p) by lia.
      rewrite Z.mod_add by lia. reflexivity.
    + rewrite tick_advance by (assumption || (destruct t; [lia | exact I])).
      fold (running (c + 1) t). rewrite IH by (assumption || lia).
      f_equal. f_equal. lia.
Qed.

End Runs.

Lemma settled_state (p : Props) (s : State) :
  Consistent (p, s) -> pendingStopRef s = None -> intervalRef s = true ->
  Js.isFinite (frameInterval p) = true /\
  0 <= currentFrame s <= safeLastIndex p /\
  s = running (currentFrame s) (stopAtRef s).
Proof.
  destruct s as [c ip ps ir t pend]. unfold Consistent. cbn.
  intros (Hc & _ & Hpl & Hir & _) -> ->.
  symmetry in Hir. apply andb_true_iff in Hir. destruct Hir as [-> Hfin].
  rewrite (proj1 Hpl eq_refl). repeat split; assumption || lia.
Qed.

(** ** The timer and the interval *)

(** X12. When the interval is not finite (a duration of [Infinity], say),
    [play] on a non-empty frame list still reports [playing], but no interval
    is armed and no tick, in any order, ever changes the state. *)
Theorem non_finite_interval_never_ticks (p : Props) (s : State)
  (o : option PlayOptions) (schedule : list bool) :
  0 < framesLength p ->
  Js.isFinite (frameInterval p) = false ->
  getPlaybackState (snd (step (p, s) (OpPlay o))) = playing /\
  intervalRef (snd (step (p, s) (OpPlay o))) = false /\
  ticksBy p schedule (snd (step (p, s) (OpPlay o)))
  = snd (step (p, s) (OpPlay o)).
Proof.
  intros HN Hfin. rewrite play_commit by exact HN. rewrite Hfin.
  unfold getPlaybackState. cbn [playbackState intervalRef].
  split; [reflexivity |]. split; [reflexivity |].
  apply ticksBy_no_timer. reflexivity.
Qed.

Lemma non_finite_interval_never_ticks_witness :
  (0 < framesLength infiniteDurationProps /\
   Js.isFinite (frameInterval infiniteDurationProps) = false) /\
  ticksBy infiniteDurationProps [false; true; false]
    (snd (step (infiniteDurationProps, mount infiniteDurationProps)
               (OpPlay None)))
  = snd (step (infiniteDurationProps, mount infiniteDurationProps)
              (OpPlay None)).
Proof.
  assert (H1 : 0 < framesLength infiniteDurationProps) by reflexivity.
  assert (H2 : Js.isFinite (frameInterval infiniteDurationProps) = false)
    by (vm_compute; reflexivity).
  split; [exact (conj H1 H2) |].
  exact (proj2 (proj2 (non_finite_interval_never_ticks infiniteDurationProps
           (mount infiniteDurationProps) None [false; true; false] H1 H2))).
Defined.

(** ** Runs of ticks in closed form *)

(** X13. With looping on, no transition pending, and no stop target or a
    stale one greater than [N] (left by a shrink of the frame list), a
    ticking engine at index [c] is at index [(c + k) mod N] after [k] ticks
    in any order, still playing, its stop target as it was. *)
Theorem loop_position (p : Props) (s : State) (schedule : list bool) :
  0 < framesLength p ->
  loop p = true ->
  Consistent (p, s) ->
  pendingStopRef s = None ->
  intervalRef s = true ->
  match stopAtRef s with Some x => framesLength p < x | None => True end ->
  getCurrentFrame (ticksBy p schedule s)
  = (getCurrentFrame s + Z.of_nat (List.length schedule)) mod framesLength p /\
  getPlaybackState (ticksBy p schedule s) = playing /\
  stopAtRef (ticksBy p schedule s) = stopAtRef s /\
  pendingStopRef (ticksBy p schedule s) = None.
Proof.
  intros HN Hl HC Hp Hir Ht.
  destruct (settled_state p s HC Hp Hir) as (Hfin & Hc & Hs).
  rewrite safeLastIndex_pos in Hc by exact HN.
  unfold getCurrentFrame, getPlaybackState.
  rewrite Hs at 1 3 4 6.
  rewrite ticksBy_loop_position by assumption. cbn. repeat split.
Qed.

Lemma loop_position_witness :
  (0 < framesLength (exampleProps 3 true false) /\
   loop (exampleProps 3 true false) = true /\
   Consistent (exampleProps 3 true false, running 1 (Some 8)) /\
   pendingStopRef (running 1 (Some 8)) = None /\
   intervalRef (running 1 (Some 8)) = true /\
   match stopAtRef (running 1 (Some 8)) with
   | Some x => framesLength (exampleProps 3 true false) < x
   | None => True
   end) /\
  getCurrentFrame
    (ticksBy (exampleProps 3 true false)
       [false; false; true; false; false; true; false] (running 1 (Some 8)))
  = 2.
Proof.
  assert (H1 : 0 < framesLength (exampleProps 3 true false)) by reflexivity.
  assert (H2 : loop (exampleProps 3 true false) = true) by reflexivity.
  assert (H3 : Consistent (exampleProps 3 true false, running 1 (Some 8))).
  { vm_compute. repeat split; intros; try discriminate.
    - left. reflexivity.
    - match goal with H : Some _ = Some _ |- _ => injection H as <- end.
      discriminate. }
  assert (H4 : pendingStopRef (running 1 (Some 8)) = None) by reflexivity.
  assert (H5 : intervalRef (running 1 (Some 8)) = true) by reflexivity.
  assert (H6 : match stopAtRef (running 1 (Some 8)) with
               | Some x => framesLength (exampleProps 3 true false) < x
               | None => True
               end) by (cbn; lia).
  split; [exact (conj H1 (conj H2 (conj H3 (conj H4 (conj H5 H6))))) |].
  exact (proj1 (loop_position (exampleProps 3 true false)
                  (running 1 (Some 8))
                  [false; false; true; false; false; true; false]
                  H1 H2 H3 H4 H5 H6)).
Defined.

(** X14. Why a run to a stop target overshoots.  From any valid index [c]
    with no transition pending, after [play({stopAtFrame: T})], with
    [t = clampFrame T] and [n = max (t - c) 1], ticks whose updaters React
    runs after the callback go through [c, c + 1, ...]; after tick [n] the
    index is [t] but the engine is still playing, the timer armed and the
    pause only pending; tick [n + 1] commits the pause and moves the index
    once more, to [t + 1], or past the last index to 0 with looping on, or
    staying on the last index with looping off (then a [stopped] stays
    pending); there the run rests. *)
Theorem queued_run_overshoots_target (p : Props) (s : State) (T : Z) :
  0 < framesLength p ->
  Js.isFinite (frameInterval p) = true ->
  0 <= currentFrame s <= framesLength p - 1 ->
  pendingStopRef s = None ->
  (forall k : nat,
     (k < Z.to_nat (Z.max (clampFrame p T - currentFrame s) 1))%nat ->
     getCurrentFrame (ticks p k (snd (step (p, s) (playTo T))))
     = currentFrame s + Z.of_nat k /\
     getPlaybackState (ticks p k (snd (step (p, s) (playTo T)))) = playing) /\
  ticks p (Z.to_nat (Z.max (clampFrame p T - currentFrame s) 1))
    (snd (step (p, s) (playTo T)))
  = {| currentFrame := clampFrame p T; isPlaying := true;
       playbackState := playing; intervalRef := true;
       stopAtRef := Some (clampFrame p T);
       pendingStopRef := Some paused |} /\
  (forall k : nat,
     (Z.to_nat (Z.max (clampFrame p T - currentFrame s) 1) < k)%nat ->
     ticks p k (snd (step (p, s) (playTo T)))
     = {| currentFrame := nextIndex p (clampFrame p T); isPlaying := false;
          playbackState := paused; intervalRef := false; stopAtRef := None;
          pendingStopRef :=
            if (clampFrame p T + 1 >? framesLength p - 1) && negb (loop p)
            then Some stopped else None |}).
Proof.
  intros HN Hfin Hc Hp. unfold playTo, getCurrentFrame, getPlaybackState.
  rewrite play_commit by exact HN.
  cbn [optStopAtFrame stopAtFrame option_map]. rewrite Hfin, Hp.
  pose proof (clampFrame_range p T) as Ht.
  rewrite safeLastIndex_pos in Ht by exact HN.
  set (t := clampFrame p T) in *. set (c := currentFrame s) in *.
  fold (running c (Some t)).
  set (n := Z.to_nat (Z.max (t - c) 1)).
  assert (Hn : ticks p n (running c (Some t))
               = {| currentFrame := t; isPlaying := true;
                    playbackState := playing; intervalRef := true;
                    stopAtRef := Some t; pendingStopRef := Some paused |}).
  { destruct (Z_le_gt_dec t c) as [Hle | Hgt].
    - replace n with 1%nat by lia. rewrite ticks_succ_r.
      change (ticks p 0 (running c (Some t))) with (running c (Some t)).
      unfold running. rewrite tick_reach_queued by (assumption || lia).
      rewrite clamp_id by lia. reflexivity.
    - replace n with (S (Z.to_nat (t - c - 1))) by lia.
      rewrite ticks_succ_r, ticks_running by (assumption || lia).
      unfold running. rewrite tick_reach_queued by (assumption || lia).
      rewrite clamp_id by lia. reflexivity. }
  split; [| split].
  - intros k Hk. destruct k as [| k]; [cbn; split; [lia | reflexivity] |].
    rewrite ticks_running by (assumption || lia).
    cbn. split; reflexivity.
  - exact Hn.
  - intros k Hk. replace k with ((k - S n) + 1 + n)%nat by lia.
    rewrite ticks_add, Hn, ticks_add.
    change (ticks p 1 ?x) with (tick p false x).
    rewrite tick_commit_queued by exact HN.
    apply ticks_no_timer. reflexivity.
Qed.

Lemma queued_run_overshoots_target_witness :
  (0 < framesLength (exampleProps 5 true true) /\
   Js.isFinite (frameInterval (exampleProps 5 true true)) = true /\
   0 <= currentFrame (running 2 None)
     <= framesLength (exampleProps 5 true true) - 1 /\
   pendingStopRef (running 2 None) = None) /\
  ticks (exampleProps 5 true true) 4
    (snd (step (exampleProps 5 true true, running 2 None) (playTo 999)))
  = halted 0 paused.
Proof.
  assert (H1 : 0 < framesLength (exampleProps 5 true true)) by reflexivity.
  assert (H2 : Js.isFinite (frameInterval (exampleProps 5 true true)) = true)
    by (vm_compute; reflexivity).
  assert (H3 : 0 <= currentFrame (running 2 None)
               <= framesLength (exampleProps 5 true true) - 1) by (cbn; lia).
  assert (H4 : pendingStopRef (running 2 None) = None) by reflexivity.
  split; [exact (conj H1 (conj H2 (conj H3 H4))) |].
  apply (proj2 (proj2 (queued_run_overshoots_target (exampleProps 5 true true)
                  (running 2 None) 999 H1 H2 H3 H4)) 4%nat).
  vm_compute. lia.
Defined.

(** X20. With looping off, no stop target and no transition pending, a
    ticking engine at index [c] plays through [c + k] up to the last index
    and, from tick [N - c + 1] on in any order of updaters, rests at the last
    index [N - 1], [stopped], with the timer released: the last frame is not
    overshot. *)
Theorem settled_run_to_end (p : Props) (s : State) (schedule : list bool) :
  0 < framesLength p ->
  loop p = false ->
  Consistent (p, s) ->
  pendingStopRef s = None ->
  intervalRef s = true ->
  stopAtRef s = None ->
  (Z.of_nat (List.length schedule) <= framesLength p - 1 - getCurrentFrame s ->
   getCurrentFrame (ticksBy p schedule s)
   = getCurrentFrame s + Z.of_nat (List.length schedule) /\
   getPlaybackState (ticksBy p schedule s) = playing) /\
  (framesLength p - getCurrentFrame s + 1 <= Z.of_nat (List.length schedule) ->
   getCurrentFrame (ticksBy p schedule s) = framesLength p - 1 /\
   getPlaybackState (ticksBy p schedule s) = stopped /\
   intervalRef (ticksBy p schedule s) = false /\
   stopAtRef (ticksBy p schedule s) = None).
Proof.
  intros HN Hl HC Hp Hir Hst.
  destruct (settled_state p s HC Hp Hir) as (Hfin & Hc & Hs).
  rewrite safeLastIndex_pos in Hc by exact HN.
  unfold getCurrentFrame, getPlaybackState. rewrite Hst in Hs.
  set (c := currentFrame s) in *. rewrite Hs. clear Hs. split.
  - intros Hk. rewrite ticksBy_running by (exact I || assumption || lia).
    cbn. split; reflexivity.
  - intros Hk.
    set (m := Z.to_nat (framesLength p - 1 - c)).
    rewrite <- (firstn_skipn m schedule), ticksBy_app.
    assert (Hf : List.length (firstn m schedule) = m)
      by (rewrite length_firstn; lia).
    assert (Hr : (2 <= List.length (skipn m schedule))%nat)
      by (rewrite length_skipn; lia).
    rewrite ticksBy_running by (exact I || assumption || lia).
    rewrite Hf. replace (c + Z.of_nat m) with (framesLength p - 1) by lia.
    destruct (skipn m schedule) as [| e1 [| e2 rest]];
      [cbn in Hr; lia | cbn in Hr; lia |].
    rewrite !ticksBy_cons. unfold running. destruct e1.
    + rewrite tick_halt_eager by (exact I || assumption || lia).
      rewrite tick_no_timer by reflexivity.
      rewrite ticksBy_no_timer by reflexivity. cbn. repeat split.
    + rewrite tick_halt_queued by (exact I || assumption || lia).
      destruct e2.
      * rewrite tick_halt_eager by (exact I || assumption || lia).
        rewrite ticksBy_no_timer by reflexivity. cbn. repeat split.
      * rewrite tick_commit_queued by exact HN.
        rewrite ticksBy_no_timer by reflexivity.
        unfold nextIndex. rewrite Hl.
        destruct (Z.gtb_spec (framesLength p - 1 + 1) (framesLength p - 1));
          [| lia].
        cbn. repeat split.
Qed.

Lemma settled_run_to_end_witness :
  (0 < framesLength (exampleProps 10 false true) /\
   loop (exampleProps 10 false true) = false /\
   Consistent (exampleProps 10 false true, mount (exampleProps 10 false true)) /\
   pendingStopRef (mount (exampleProps 10 false true)) = None /\
   intervalRef (mount (exampleProps 10 false true)) = true /\
   stopAtRef (mount (exampleProps 10 false true)) = None) /\
  getPlaybackState
    (ticksBy (exampleProps 10 false true) (repeat false 11)
       (mount (exampleProps 10 false true))) = stopped.
Proof.
  assert (H1 : 0 < framesLength (exampleProps 10 false true)) by reflexivity.
  assert (H2 : loop (exampleProps 10 false true) = false) by reflexivity.
  assert (H3 : Consistent (exampleProps 10 false true,
                           mount (exampleProps 10 false true))).
  { vm_compute. repeat split; intros; try discriminate. left. reflexivity. }
  assert (H4 : pendingStopRef (mount (exampleProps 10 false true)) = None)
    by (vm_compute; reflexivity).
  assert (H5 : intervalRef (mount (exampleProps 10 false true)) = true)
    by (vm_compute; reflexivity).
  assert (H6 : stopAtRef (mount (exampleProps 10 false true)) = None)
    by (vm_compute; reflexivity).
  split; [exact (conj H1 (conj H2 (conj H3 (conj H4 (conj H5 H6))))) |].
  apply (proj2 (settled_run_to_end (exampleProps 10 false true)
                  (mount (exampleProps 10 false true)) (repeat false 11)
                  H1 H2 H3 H4 H5 H6)).
  vm_compute. discriminate.
Defined.

(** ** Pausing, stopping and seeking *)

(** X15. [pause()], [stop()] and [goToFrame] with [autoPause] release the
    timer: after any of them no tick, in any order, changes the state, until
    the next [play]. *)
Theorem halting_commands_cancel_ticks (p : Props) (s : State) (op : Op)
  (schedule : list bool) :
  op = OpPause \/ op = OpStop \/
  (exists i o, op = OpGoToFrame i o /\ optAutoPause o = true) ->
  intervalRef (snd (step (p, s) op)) = false /\
  ticksBy p schedule (snd (step (p, s) op)) = snd (step (p, s) op).
Proof.
  intros Hop.
  assert (H : intervalRef (snd (step (p, s) op)) = false).
  { destruct s as [c ip ps ir t pend].
    destruct Hop as [-> | [-> | (i & o & -> & Ho)]]; hook_unfold; cbn;
      rewrite ?Ho; cbn; destruct ir; reflexivity. }
  split; [exact H |]. apply ticksBy_no_timer. exact H.
Qed.

Lemma halting_commands_cancel_ticks_witness :
  (OpPause = OpPause \/ OpPause = OpStop \/
   (exists i o, OpPause = OpGoToFrame i o /\ optAutoPause o = true)) /\
  ticksBy (exampleProps 5 true true) [false; true; false; false]
    (snd (step (exampleProps 5 true true, running 2 None) OpPause))
  = snd (step (exampleProps 5 true true, running 2 None) OpPause).
Proof.
  assert (H1 : OpPause = OpPause \/ OpPause = OpStop \/
   (exists i o, OpPause = OpGoToFrame i o /\ optAutoPause o = true))
    by (left; reflexivity).
  split; [exact H1 |].
  exact (proj2 (halting_commands_cancel_ticks (exampleProps 5 true true)
                  (running 2 None) OpPause [false; true; false; false] H1)).
Defined.

(** X16. On a non-empty frame list [goToFrame i] lands on the valid index
    nearest to [i] (0 below the range, [N - 1] above it, [i] inside) and
    keeps the stop target; without [autoPause] it changes nothing else, with
    [autoPause] it also pauses and releases the timer. *)
Theorem goToFrame_effect (p : Props) (s : State) (i : Z)
  (o : option GoToFrameOptions) :
  Inv (p, s) ->
  0 < framesLength p ->
  snd (step (p, s) (OpGoToFrame i o))
  = {| currentFrame :=
         if i <? 0 then 0
         else if framesLength p - 1 <? i then framesLength p - 1 else i;
       isPlaying := if optAutoPause o then false else isPlaying s;
       playbackState := if optAutoPause o then paused else playbackState s;
       intervalRef := if optAutoPause o then false else intervalRef s;
       stopAtRef := stopAtRef s;
       pendingStopRef := pendingStopRef s |}.
Proof.
  intros HI HN. destruct s as [c ip ps ir t pend]. unfold Inv in HI. cbn in HI.
  destruct HI as (_ & _ & _ & Hir & _).
  assert (Hi : clampFrame p i
               = if i <? 0 then 0
                 else if framesLength p - 1 <? i then framesLength p - 1 else i).
  { unfold clampFrame. rewrite safeLastIndex_pos by exact HN.
    destruct (Z.eqb_spec (framesLength p) 0); [lia |].
    unfold clamp, Js.Math_min, Js.Math_max.
    destruct (Z.ltb_spec i 0); [lia |].
    destruct (Z.ltb_spec (framesLength p - 1) i); lia. }
  hook_unfold. cbn. rewrite Hi.
  destruct (optAutoPause o); cbn; rewrite ?transition_value.
  - destruct ir; reflexivity.
  - subst ir. destruct ip; cbn;
      destruct (Js.isFinite (frameInterval p)); reflexivity.
Qed.

Lemma goToFrame_effect_witness :
  (Inv (exampleProps 5 true true, running 2 (Some 4)) /\
   0 < framesLength (exampleProps 5 true true)) /\
  snd (step (exampleProps 5 true true, running 2 (Some 4))
            (OpGoToFrame 17 None))
  = running 4 (Some 4).
Proof.
  assert (H1 : Inv (exampleProps 5 true true, running 2 (Some 4))).
  { vm_compute. repeat split; intros; try discriminate.
    match goal with H : Some _ = Some _ |- _ => injection H as <- end.
    discriminate. }
  assert (H2 : 0 < framesLength (exampleProps 5 true true)) by reflexivity.
  split; [exact (conj H1 H2) |].
  exact (goToFrame_effect (exampleProps 5 true true) (running 2 (Some 4))
           17 None H1 H2).
Defined.

(** X17. [clampFrame] picks the valid index nearest to its argument: on a
    non-empty list no index of the list is closer to [i] than
    [clampFrame i]; on an empty list the result is 0. *)
Theorem clampFrame_nearest (p : Props) (i j : Z) :
  0 <= j <= safeLastIndex p ->
  0 <= clampFrame p i <= safeLastIndex p /\
  Z.abs (clampFrame p i - i) <= Z.abs (j - i) /\
  (framesLength p = 0 -> clampFrame p i = 0).
Proof.
  intros Hj. split; [apply clampFrame_range |].
  unfold clampFrame, clamp, Js.Math_min, Js.Math_max in *.
  destruct (Z.eqb_spec (framesLength p) 0) as [E | E].
  - split; [| reflexivity]. unfold safeLastIndex, Js.Math_max in Hj.
    rewrite E in Hj. lia.
  - split; [lia | contradiction].
Qed.

Lemma clampFrame_nearest_witness :
  0 <= 3 <= safeLastIndex (exampleProps 5 true true) /\
  Z.abs (clampFrame (exampleProps 5 true true) 9 - 9) <= Z.abs (3 - 9).
Proof.
  assert (H1 : 0 <= 3 <= safeLastIndex (exampleProps 5 true true))
    by (vm_compute; split; discriminate).
  split; [exact H1 |].
  exact (proj1 (proj2 (clampFrame_nearest (exampleProps 5 true true) 9 3 H1))).
Defined.

(** ** Rendering *)

(** X18. In the state that any sequence of operations leaves, once the
    effects have run, the component renders the placeholder exactly when the
    frame list is empty, and otherwise an image whose [src] is defined and is
    the frame of the list at the current index, with [data-frame] and
    [data-state] the current index and playback state.  The render that
    React commits before the effects of a change of props is another matter:
    it pairs the new frame list with the index not yet re-clamped, and on a
    list shrunk to or below that index its [src] is undefined. *)
Theorem rendered_frame_exists (p : Props) (ops : list Op) :
  match render (fst (run ops (start p))) (snd (run ops (start p))) with
  | Placeholder => frames (fst (run ops (start p))) = []
  | FrameView src dataFrame dataState =>
      frames (fst (run ops (start p))) <> [] /\
      (exists f, src = Some f /\ In f (frames (fst (run ops (start p)))) /\
                 nth_error (frames (fst (run ops (start p))))
                           (Z.to_nat (getCurrentFrame (snd (run ops (start p)))))
                 = Some f) /\
      dataFrame = getCurrentFrame (snd (run ops (start p))) /\
      dataState = getPlaybackState (snd (run ops (start p)))
  end /\
  (forall p' : Props,
     0 < framesLength p' <= getCurrentFrame (snd (run ops (start p))) ->
     render p' (snd (run ops (start p)))
     = FrameView None (getCurrentFrame (snd (run ops (start p))))
                 (getPlaybackState (snd (run ops (start p))))).
Proof.
  pose proof (reachable_Consistent p ops) as H.
  destruct (run ops (start p)) as [q s]. cbn [fst snd].
  destruct H as (Hc & _). unfold getCurrentFrame, getPlaybackState. split.
  - unfold render.
    unfold safeLastIndex, Js.Math_max in Hc. unfold framesLength in *.
    destruct (frames q) as [| f fs] eqn:Ef; [reflexivity |].
    cbn [List.length] in *.
    destruct (Z.gtb_spec (Z.of_nat (S (List.length fs))) 0); [| lia]. cbn [negb].
    split; [discriminate |]. split; [| split; reflexivity].
    unfold arrayGet. destruct (Z.ltb_spec (currentFrame s) 0); [lia |].
    destruct (nth_error (f :: fs) (Z.to_nat (currentFrame s))) as [a |] eqn:E.
    + exists a. split; [reflexivity |]. split; [| reflexivity].
      eapply nth_error_In. exact E.
    + apply nth_error_None in E. cbn [List.length] in E. lia.
  - intros p' Hp'. unfold render, arrayGet.
    destruct (Z.gtb_spec (framesLength p') 0); [| lia]. cbn [negb].
    destruct (Z.ltb_spec (currentFrame s) 0); [lia |].
    replace (nth_error (frames p') (Z.to_nat (currentFrame s))) with (@None string);
      [reflexivity |].
    symmetry. apply nth_error_None. unfold framesLength in Hp'. lia.
Qed.

(** The render committed before the re-clamp: index 4 of 5 frames, then a
    list of 2. *)
Example render_before_reclamp :
  render (exampleProps 2 true false)
    (snd (run [OpGoToFrame 4 None] (start (exampleProps 5 true false))))
  = FrameView None 4 idle.
Proof. vm_compute. reflexivity. Qed.

(** ** What a tick can do to the playback state *)

(** X19. In any state the engine can be in, and in either order of updater
    and check, a tick changes the playback state only from [playing] and only
    to [paused] or [stopped]; with the change [isPlaying] is reset, the timer
    released and the stop target cleared. *)
Theorem tick_transitions (p : Props) (s : State) (eager : bool) :
  Consistent (p, s) ->
  getPlaybackState (tick p eager s) <> getPlaybackState s ->
  getPlaybackState s = playing /\
  (getPlaybackState (tick p eager s) = paused \/
   getPlaybackState (tick p eager s) = stopped) /\
  isPlaying (tick p eager s) = false /\
  intervalRef (tick p eager s) = false /\
  stopAtRef (tick p eager s) = None.
Proof.
  unfold getPlaybackState.
  destruct s as [c ip ps ir t pend]. intros HC. unfold Consistent in HC.
  cbn in HC. destruct HC as (Hc & Hp & Hpl & Hir & Hz & Ht).
  destruct ir; [| rewrite tick_no_timer by reflexivity; cbn; congruence].
  symmetry in Hir. apply andb_true_iff in Hir. destruct Hir as [-> Hfin].
  rewrite (proj1 Hpl eq_refl).
  pending_cases Hp; destruct eager; hook_unfold; cbn;
    destruct (framesLength p =? 0); cbn;
    try (destruct t as [x |]; cbn; [destruct (c + 1 >=? x); cbn |]);
    try (destruct (c + 1 >? framesLength p - 1); cbn;
         [destruct (loop p); cbn |]);
    rewrite ?Hfin; cbn; intros Hne;
    try congruence; repeat split; auto.
Qed.

Lemma tick_transitions_witness :
  (Consistent (exampleProps 5 true true,
               snd (run (playTo 3 :: queuedTicks 3)
                      (start (exampleProps 5 true true)))) /\
   getPlaybackState
     (tick (exampleProps 5 true true) false
        (snd (run (playTo 3 :: queuedTicks 3)
                (start (exampleProps 5 true true)))))
   <> getPlaybackState
        (snd (run (playTo 3 :: queuedTicks 3)
                (start (exampleProps 5 true true))))) /\
  intervalRef
    (tick (exampleProps 5 true true) false
       (snd (run (playTo 3 :: queuedTicks 3)
               (start (exampleProps 5 true true))))) = false.
Proof.
  assert (H1 : Consistent (exampleProps 5 true true,
               snd (run (playTo 3 :: queuedTicks 3)
                      (start (exampleProps 5 true true))))).
  { vm_compute. repeat split; intros; try discriminate.
    - right. left. reflexivity.
    - match goal with H : Some _ = Some _ |- _ => injection H as <- end.
      discriminate. }
  assert (H2 : getPlaybackState
     (tick (exampleProps 5 true true) false
        (snd (run (playTo 3 :: queuedTicks 3)
                (start (exampleProps 5 true true)))))
   <> getPlaybackState
        (snd (run (playTo 3 :: queuedTicks 3)
                (start (exampleProps 5 true true)))))
    by (vm_compute; discriminate).
  split; [exact (conj H1 H2) |].
  exact (proj1 (proj2 (proj2 (proj2 (tick_transitions (exampleProps 5 true true)
           (snd (run (playTo 3 :: queuedTicks 3)
                   (start (exampleProps 5 true true)))) false H1 H2))))).
Defined.
